(** * rgbpixel: a one-pixel "strip" driving a discrete RGB LED over three PWM channels

    Shallow embedding of [rgbpixel.py] (class [RGBPixel]) and the properties
    of its pixel store and of its scale-and-commit pipeline.

    Conventions of the embedding:
    - Python integers are [Z]; [<<], [>>], [|] and [%] are [Z.shiftl],
      [Z.shiftr], [Z.lor] and [Z.modulo] (floor modulo, sign of the divisor,
      as in Python).
    - Python floats are IEEE 754 binary64 numbers: Rocq's primitive [float].
    - Exceptions are values of [exn]; a computation that may raise returns a
      [result].  Methods run in a small state-and-exception monad in which
      the state survives a raise, as a mutated Python object does.
    - [machine.PWM] is outside the repository.  Every call made to it is
      appended to a trace, and a fault oracle decides, from the call and the
      history, whether the call raises. *)

From Stdlib Require Import ZArith List String Bool Lia Floats.
Import ListNotations.
Local Open Scope Z_scope.

(** ** Python runtime: exceptions, results, the method monad *)

Inductive exn : Type :=
| ValueError (msg : string)
| IndexError (msg : string)
| OverflowError (msg : string)
| OSError (errno : Z).

Inductive result (A : Type) : Type :=
| Ok (a : A)
| Raise (e : exn).

Arguments Ok {A} a.
Arguments Raise {A} e.

Definition M (S A : Type) : Type := S -> result A * S.

Definition ret {S A : Type} (a : A) : M S A := fun s => (Ok a, s).

Definition raise {S A : Type} (e : exn) : M S A := fun s => (Raise e, s).

Definition bind {S A B : Type} (m : M S A) (k : A -> M S B) : M S B :=
  fun s =>
    match m s with
    | (Ok a, s') => k a s'
    | (Raise e, s') => (Raise e, s')
    end.

Definition lift {S A : Type} (r : result A) : M S A := fun s => (r, s).

Definition gets {S A : Type} (f : S -> A) : M S A := fun s => (Ok (f s), s).

Definition modify {S : Type} (f : S -> S) : M S unit := fun s => (Ok tt, f s).

Declare Scope py_scope.
Delimit Scope py_scope with py.
Notation "x <- m ;; k" := (bind m (fun x => k))
  (at level 61, m at next level, right associativity) : py_scope.
Notation "m ;; k" := (bind m (fun _ => k))
  (at level 61, right associativity) : py_scope.
Local Open Scope py_scope.

(** The same on plain results, for code that touches no state. *)
Definition rbind {A B : Type} (r : result A) (k : A -> result B) : result B :=
  match r with
  | Ok a => k a
  | Raise e => Raise e
  end.

(** [seq[i]] for a tuple and a constant index [i >= 0]. *)
Definition subscript (value : list Z) (i : nat) : result Z :=
  match nth_error value i with
  | Some x => Ok x
  | None => Raise (IndexError "tuple index out of range")
  end.

(** ** Python floats *)

(** [float(z)], the conversion of the left operand in [int * float]:
    correctly rounded, [OverflowError] when the integer is too large. *)
Definition float_of_int (z : Z) : result float :=
  match binary_normalize prec emax z 0 false with
  | S754_infinity _ => Raise (OverflowError "int too large to convert to float")
  | sf => Ok (SF2Prim sf)
  end.

(** [z * m] for an integer [z] and a float [m]. *)
Definition int_mul_float (z : Z) (m : float) : result float :=
  rbind (float_of_int z) (fun x => Ok (PrimFloat.mul x m)).

(** The integer nearest to [m * 2^e], ties to the even one. *)
Definition round_half_even (m : positive) (e : Z) : Z :=
  if 0 <=? e then Z.pos m * 2 ^ e
  else
    let k := - e in
    let q := Z.shiftr (Z.pos m) k in
    let r := Z.land (Z.pos m) (Z.ones k) in
    let h := 2 ^ (k - 1) in
    if r <? h then q
    else if h <? r then q + 1
    else if Z.even q then q else q + 1.

(** The builtin [round(x)] with one float argument: an integer, ties to
    even; it raises on NaN and on the infinities. *)
Definition round (x : float) : result Z :=
  match Prim2SF x with
  | S754_zero _ => Ok 0
  | S754_infinity _ => Raise (OverflowError "cannot convert float infinity to integer")
  | S754_nan => Raise (ValueError "cannot convert float NaN to integer")
  | S754_finite s m e =>
      let n := round_half_even m e in
      Ok (if s then - n else n)
  end.

(** ** The PWM collaborator *)

Definition Pin : Type := Z.

(** A [machine.PWM] object is known by what it was configured with. *)
Record PWM : Type := mkPWM {
  pwm_pin : Pin;
  pwm_freq : Z;
  pwm_invert : bool
}.

(** The calls the driver makes: the constructor [PWM(pin, freq, duty = d,
    invert = i)] and the method [pwm.duty(v)]. *)
Inductive HwCall : Type :=
| PWM_new (p : PWM) (d : Z)
| PWM_duty (p : PWM) (v : Z).

Definition Trace : Type := list HwCall.

(** Whether a call raises, given the calls made before it. *)
Definition Faults : Type := HwCall -> Trace -> option exn.

Definition no_fault : Faults := fun _ _ => None.

(** ** The class [RGBPixel] *)

Module RGBPixel.

(** The pixel value handed to and returned by a scaler function. *)
Definition Pixel : Type := (Z * Z * Z)%type.

(** The [scaler] argument: [None], a tuple of three floats, or a function
    from a pixel value to a pixel value (which, as any call, may raise). *)
Inductive Scaler : Type :=
| NoScaler
| Linear (m0 m1 m2 : float)
| Functional (f : Pixel -> result Pixel).

(** One of the dictionaries [{ 'value': v, 'px': PWM(...) }]. *)
Record Channel : Type := mkChannel {
  value : Z;
  px : PWM
}.

(** The attributes of an instance. *)
Record t : Type := mkRGBPixel {
  scaler : Scaler;
  red : Channel;
  green : Channel;
  blue : Channel
}.

(** What a method runs on: the instance and the calls made to the
    hardware so far. *)
Record World : Type := mkWorld {
  self : t;
  hw : Trace
}.

Definition set_red_value (v : Z) (o : t) : t :=
  mkRGBPixel (scaler o) (mkChannel v (px (red o))) (green o) (blue o).

Definition set_green_value (v : Z) (o : t) : t :=
  mkRGBPixel (scaler o) (red o) (mkChannel v (px (green o))) (blue o).

Definition set_blue_value (v : Z) (o : t) : t :=
  mkRGBPixel (scaler o) (red o) (green o) (mkChannel v (px (blue o))).

Definition on_self (f : t -> t) : M World unit :=
  modify (fun w => mkWorld (f (self w)) (hw w)).

(** The stored colour, as [__getitem__] builds it. *)
Definition color (o : t) : Pixel :=
  (value (red o), value (green o), value (blue o)).

(** The arguments of the constructor, with the defaults of its signature. *)
Record Args : Type := mkArgs {
  arg_red : Pin;
  arg_green : Pin;
  arg_blue : Pin;
  arg_n : Z;
  arg_bpp : Z;
  arg_timing : option Z;
  arg_invert : bool;
  arg_freq : Z;
  arg_scaler : Scaler
}.

Definition default_args (r g b : Pin) : Args :=
  mkArgs r g b 1 3 None false 5000 NoScaler.

(** Lines 131-136 of [write]: the scaler applied to the stored values. *)
Definition apply_scaler (s : Scaler) (p : Pixel) : result Pixel :=
  let '(red, green, blue) := p in
  match s with
  | Functional f => f (red, green, blue)
  | Linear m0 m1 m2 =>
      rbind (rbind (int_mul_float red m0) round) (fun red =>
      rbind (rbind (int_mul_float green m1) round) (fun green =>
      rbind (rbind (int_mul_float blue m2) round) (fun blue =>
      Ok (red, green, blue))))
  | NoScaler => Ok (red, green, blue)
  end.

(** Lines 139-141 of [write]: [( v << 2 ) | ( v >> 6 )]. *)
Definition expand10 (v : Z) : Z := Z.lor (Z.shiftl v 2) (Z.shiftr v 6).

Section Hardware.

Variable fault : Faults.

(** A call to the collaborator: recorded, then it returns or raises. *)
Definition call (c : HwCall) : M Trace unit :=
  fun tr =>
    match fault c tr with
    | Some e => (Raise e, tr ++ [c])
    | None => (Ok tt, tr ++ [c])
    end.

Definition new_PWM (pin : Pin) (freq d : Z) (invert : bool) : M Trace PWM :=
  let p := mkPWM pin freq invert in
  call (PWM_new p d) ;; ret p.

(** [p.duty(v)] from inside a method. *)
Definition duty (p : PWM) (v : Z) : M World unit :=
  fun w =>
    let '(r, tr) := call (PWM_duty p v) (hw w) in
    (r, mkWorld (self w) tr).

Definition write : M World unit :=
  red0 <- gets (fun w => value (red (self w))) ;;
  green0 <- gets (fun w => value (green (self w))) ;;
  blue0 <- gets (fun w => value (blue (self w))) ;;
  s <- gets (fun w => scaler (self w)) ;;
  scaled <- lift (apply_scaler s (red0, green0, blue0)) ;;
  let '(red1, green1, blue1) := scaled in
  let red2 := expand10 red1 in
  let green2 := expand10 green1 in
  let blue2 := expand10 blue1 in
  pr <- gets (fun w => px (red (self w))) ;;
  duty pr red2 ;;
  pg <- gets (fun w => px (green (self w))) ;;
  duty pg green2 ;;
  pb <- gets (fun w => px (blue (self w))) ;;
  duty pb blue2.

Definition __setitem__ (index : Z) (value : list Z) : M World unit :=
  if negb (index =? 0) then raise (IndexError "Strip index out of range")
  else
    v0 <- lift (subscript value 0) ;;
    on_self (set_red_value (v0 mod 256)) ;;
    v1 <- lift (subscript value 1) ;;
    on_self (set_green_value (v1 mod 256)) ;;
    v2 <- lift (subscript value 2) ;;
    on_self (set_blue_value (v2 mod 256)).

Definition fill (value : list Z) : M World unit := __setitem__ 0 value.

Definition __getitem__ (index : Z) : M World Pixel :=
  if negb (index =? 0) then raise (IndexError "Strip index out of range")
  else gets (fun w => color (self w)).

Definition __len__ : M World Z := ret 1.

(** The constructor: from the arguments and the hardware history to the new
    instance, or to the exception that leaves the caller without one. *)
Definition __init__ (a : Args) : M Trace t :=
  if negb (arg_n a =? 1) then raise (ValueError "Only 1 pixel long strip is supported")
  else if negb (arg_bpp a =? 3) then raise (ValueError "Only an RGB pixel is supported")
  else
    pr <- new_PWM (arg_red a) (arg_freq a) 0 (arg_invert a) ;;
    pg <- new_PWM (arg_green a) (arg_freq a) 0 (arg_invert a) ;;
    pb <- new_PWM (arg_blue a) (arg_freq a) 0 (arg_invert a) ;;
    let o := mkRGBPixel (arg_scaler a) (mkChannel 0 pr) (mkChannel 0 pg) (mkChannel 0 pb) in
    fun tr =>
      let '(r, w) := write (mkWorld o tr) in
      match r with
      | Ok _ => (Ok (self w), hw w)
      | Raise e => (Raise e, hw w)
      end.

End Hardware.

(** The two example scalers.  Their constants 0.3182, 0.875, 0.2521 and
    0.1056 are written as the binary64 numbers Python reads them as. *)
Definition SMLP34RGB_lumi_scaler (pixel : Pixel) : result Pixel :=
  let '(p0, p1, p2) := pixel in
  rbind (rbind (int_mul_float p1 0x1.45d63886594afp-2%float) round) (fun g =>
  rbind (rbind (int_mul_float p2 0x1.cp-1%float) round) (fun b =>
  Ok (p0, g, b))).

Definition SMLP34RGB_photopic_scaler (pixel : Pixel) : result Pixel :=
  let '(p0, p1, p2) := pixel in
  rbind (rbind (int_mul_float p0 0x1.0226809d49518p-2%float) round) (fun r =>
  rbind (rbind (int_mul_float p1 0x1.b089a02752546p-4%float) round) (fun g =>
  Ok (r, g, p2))).

End RGBPixel.


Import RGBPixel.

(** ** Vocabulary of the specification *)

(** The normalisation rule as the specification writes it. *)
Definition normalize (x : Z) : Z := ((x mod 256) + 256) mod 256.

(** The same rule read with a remainder that takes the sign of the
    dividend (C, Java, Rust), for which the [+ 256] is there. *)
Definition normalize_rem (x : Z) : Z := Z.rem (Z.rem x 256 + 256) 256.

(** The three set-duty calls of a commit of pixel [p] on instance [o]:
    red, green, blue. *)
Definition duty_calls (o : t) (p : Pixel) : list HwCall :=
  let '(r, g, b) := p in
  [PWM_duty (px (red o)) (expand10 r);
   PWM_duty (px (green o)) (expand10 g);
   PWM_duty (px (blue o)) (expand10 b)].

(** The calls a commit makes when nothing fails on the way: a function of
    the instance alone. *)
Definition commit_calls (o : t) : list HwCall :=
  match apply_scaler (scaler o) (color o) with
  | Ok p => duty_calls o p
  | Raise _ => []
  end.

(** The calls [cs] made one after the other, up to and including the first
    one that raises. *)
Fixpoint push (fault : Faults) (cs : list HwCall) (tr : Trace) : result unit * Trace :=
  match cs with
  | [] => (Ok tt, tr)
  | c :: cs' =>
      match fault c tr with
      | Some e => (Raise e, tr ++ [c])
      | None => push fault cs' (tr ++ [c])
      end
  end.

(** [n] is an integer nearest to the dyadic number [m * 2^e]; for [e < 0]
    the comparison is scaled by [2^(-e)] to stay within the integers. *)
Definition nearest_integer (m : positive) (e n : Z) : Prop :=
  if 0 <=? e then n = Z.pos m * 2 ^ e
  else 2 * Z.abs (n * 2 ^ (- e) - Z.pos m) <= 2 ^ (- e).

(** [n] is the float [x] rounded to a nearest integer. *)
Definition nearest_to (x : float) (n : Z) : Prop :=
  match Prim2SF x with
  | S754_zero _ => n = 0
  | S754_finite s m e => nearest_integer m e (if s then - n else n)
  | _ => False
  end.

(** [round(v * m)], the linear scaler on one channel. *)
Definition scaled_channel (v : Z) (m : float) : result Z :=
  rbind (int_mul_float v m) round.

(** A scaler under which black stays black. *)
Definition black_to_black (s : Scaler) : Prop :=
  match s with
  | Functional f => f (0, 0, 0) = Ok (0, 0, 0)
  | _ => True
  end.

(** An instance with the given scaler, colour and PWM objects. *)
Definition instance (s : Scaler) (p : Pixel) (pr pg pb : PWM) : t :=
  let '(r, g, b) := p in
  mkRGBPixel s (mkChannel r pr) (mkChannel g pg) (mkChannel b pb).

(** The board of the example in the class documentation. *)
Definition nano_red : PWM := mkPWM 46 5000 true.
Definition nano_green : PWM := mkPWM 0 5000 true.
Definition nano_blue : PWM := mkPWM 45 5000 true.

Definition nano (s : Scaler) (p : Pixel) : t :=
  instance s p nano_red nano_green nano_blue.

Definition nano_args (s : Scaler) : Args :=
  mkArgs 46 0 45 1 3 None true 5000 s.

(** A scaler function that asks for full brightness whatever the pixel. *)
Definition bright_scaler (pixel : Pixel) : result Pixel := Ok (255, 255, 255).

(** A scaler function that exchanges red and blue. *)
Definition swap_scaler (pixel : Pixel) : result Pixel :=
  let '(r, g, b) := pixel in Ok (b, g, r).

(** The linear scaler of the test script: (0.1, 0.4, 0.9). *)
Definition test_linear : Scaler :=
  Linear 0x1.999999999999ap-4%float 0x1.999999999999ap-2%float
         0x1.ccccccccccccdp-1%float.

(** A hardware on which the channel of pin [pin] refuses every duty. *)
Definition faulty_pin (pin : Pin) : Faults :=
  fun c _ =>
    match c with
    | PWM_duty p _ => if pwm_pin p =? pin then Some (OSError 5) else None
    | PWM_new _ _ => None
    end.

(** ** Ranges, sessions and the test script *)

(** A channel value. *)
Definition byte (v : Z) : Prop := 0 <= v <= 255.

Definition byte_pixel (p : Pixel) : Prop :=
  let '(r, g, b) := p in byte r /\ byte g /\ byte b.

(** The stored colour is a pixel value. *)
Definition byte_store (o : t) : Prop := byte_pixel (color o).

(** A scaler that, when it returns, turns pixel values into pixel values. *)
Definition keeps_range (s : Scaler) : Prop :=
  forall p p', byte_pixel p -> apply_scaler s p = Ok p' -> byte_pixel p'.

(** A scaler that returns a pixel value for every pixel value. *)
Definition byte_scaler (s : Scaler) : Prop :=
  forall p, byte_pixel p -> exists p', apply_scaler s p = Ok p' /\ byte_pixel p'.

(** A call the hardware accepts: a duty within the 10 bits of the PWM. *)
Definition duty_in_range (c : HwCall) : Prop :=
  match c with
  | PWM_duty _ v => 0 <= v <= 1023
  | PWM_new _ d => d = 0
  end.

(** A float that is neither NaN nor an infinity. *)
Definition finite (x : float) : Prop :=
  match Prim2SF x with
  | S754_zero _ | S754_finite _ _ _ => True
  | S754_infinity _ | S754_nan => False
  end.

(** What a program does with an instance: one of its methods, the caller
    going on after an exception. *)
Inductive MethodCall : Type :=
| Call_setitem (index : Z) (value : list Z)
| Call_fill (value : list Z)
| Call_getitem (index : Z)
| Call_len
| Call_write.

Definition perform (fault : Faults) (c : MethodCall) (w : World) : World :=
  match c with
  | Call_setitem index value => snd (__setitem__ index value w)
  | Call_fill value => snd (fill value w)
  | Call_getitem index => snd (__getitem__ index w)
  | Call_len => snd (__len__ w)
  | Call_write => snd (write fault w)
  end.

Definition session (fault : Faults) (cs : list MethodCall) (w : World) : World :=
  fold_left (fun w c => perform fault c w) cs w.

(** The pixel value as the tuple [__getitem__] returns, to hand back to
    [__setitem__]. *)
Definition tuple_of (p : Pixel) : list Z :=
  let '(r, g, b) := p in [r; g; b].

(** *** [test_rgbpixel.py] *)

(** [for x in xs: body(x)]; an exception leaves the loop. *)
Fixpoint for_each {S A : Type} (xs : list A) (body : A -> M S unit) : M S unit :=
  match xs with
  | [] => ret tt
  | x :: xs' => body x ;; for_each xs' body
  end.

(** [range(lo, hi)]. *)
Definition range (lo hi : Z) : list Z :=
  map (fun i => lo + Z.of_nat i) (seq 0 (Z.to_nat (hi - lo))).

(** The test script runs on an instance, the hardware, and a clock that
    counts the milliseconds slept. *)
Definition Bench : Type := (World * Z)%type.

Definition on_pixel {A : Type} (m : M World A) : M Bench A :=
  fun s =>
    let '(w, ms) := s in
    let '(r, w') := m w in
    (r, (w', ms)).

Definition sleep_ms (d : Z) : M Bench unit :=
  modify (fun s : Bench => let '(w, ms) := s in (w, ms + d)).

Definition test_pixel (fault : Faults) : M Bench unit :=
  for_each (range 0 3) (fun x =>
    for_each (range 0 256) (fun y =>
      on_pixel (if x =? 0 then __setitem__ 0 [255 - y; 0; y]
                else if x =? 1 then __setitem__ 0 [0; y; 255 - y]
                else __setitem__ 0 [y; 255 - y; 0]) ;;
      on_pixel (write fault) ;;
      sleep_ms 10)).

Definition unity_scaler (pixel : Pixel) : result Pixel :=
  let '(p0, p1, p2) := pixel in Ok (p0, p1, p2).

(** [px = RGBPixel(red = RED, green = GRN, blue = BLU, invert = True,
    scaler = s); test_pixel(px)] on the hardware and the clock. *)
Definition construct_and_test (fault : Faults) (s : Scaler) : M (Trace * Z) unit :=
  fun st =>
    let '(tr, ms) := st in
    match __init__ fault (mkArgs 46 0 45 1 3 None true 5000 s) tr with
    | (Ok px, tr1) =>
        let '(r, (w, ms')) := test_pixel fault (mkWorld px tr1, ms) in
        (r, (hw w, ms'))
    | (Raise e, tr1) => (Raise e, (tr1, ms))
    end.

Definition run (fault : Faults) : M (Trace * Z) unit :=
  construct_and_test fault NoScaler ;;
  construct_and_test fault test_linear ;;
  construct_and_test fault (Functional SMLP34RGB_lumi_scaler) ;;
  construct_and_test fault (Functional unity_scaler).

(** A hardware on which no PWM can be created on pin [pin]. *)
Definition no_pwm_on (pin : Pin) : Faults :=
  fun c _ =>
    match c with
    | PWM_new p _ => if pwm_pin p =? pin then Some (OSError 19) else None
    | PWM_duty _ _ => None
    end.

(** The three PWM objects the constructor creates from its arguments. *)
Definition red_pwm (a : Args) : PWM := mkPWM (arg_red a) (arg_freq a) (arg_invert a).
Definition green_pwm (a : Args) : PWM := mkPWM (arg_green a) (arg_freq a) (arg_invert a).
Definition blue_pwm (a : Args) : PWM := mkPWM (arg_blue a) (arg_freq a) (arg_invert a).

(** The instance as the constructor has it when it calls [write]. *)
Definition fresh (a : Args) : t :=
  instance (arg_scaler a) (0, 0, 0) (red_pwm a) (green_pwm a) (blue_pwm a).

(** A duty within range on one of the three given PWM objects. *)
Definition duty_on (pr pg pb : PWM) (c : HwCall) : Prop :=
  exists v, 0 <= v <= 1023 /\
            (c = PWM_duty pr v \/ c = PWM_duty pg v \/ c = PWM_duty pb v).

(** The colour [test_pixel] sets in round [x] at step [y]. *)
Definition test_colour (x y : Z) : Pixel :=
  if x =? 0 then (255 - y, 0, y)
  else if x =? 1 then (0, y, 255 - y)
  else (y, 255 - y, 0).

(** ** The bit expansion *)

Lemma shifts_disjoint (v : Z) :
  0 <= v < 256 -> Z.land (Z.shiftl v 2) (Z.shiftr v 6) = 0.
Proof.
  intros Hv. apply Z.bits_inj'. intros n Hn.
  rewrite Z.land_spec, Z.bits_0.
  destruct (Z.ltb_spec n 2) as [Hlt | Hge].
  - rewrite Z.shiftl_spec_low by lia. reflexivity.
  - rewrite Z.shiftr_spec by lia.
    destruct (Z.eq_dec v 0) as [-> | Hnz].
    + rewrite !Z.bits_0. apply andb_false_r.
    + rewrite (Z.bits_above_log2 v (n + 6)).
      * apply andb_false_r.
      * lia.
      * assert (Z.log2 v < 8) by (apply Z.log2_lt_pow2; lia). lia.
Qed.

Lemma expand10_arith (v : Z) :
  0 <= v < 256 -> expand10 v = 4 * v + v / 64.
Proof.
  intros Hv. unfold expand10.
  rewrite <- Z.lxor_lor by (apply shifts_disjoint; exact Hv).
  rewrite <- Z.add_nocarry_lxor by (apply shifts_disjoint; exact Hv).
  rewrite Z.shiftl_mul_pow2, Z.shiftr_div_pow2 by lia.
  change (2 ^ 2) with 4. change (2 ^ 6) with 64. lia.
Qed.

Lemma expand10_range (v : Z) :
  0 <= v < 256 -> 0 <= expand10 v <= 1023.
Proof.
  intros Hv. rewrite expand10_arith by exact Hv.
  assert (0 <= v / 64 < 4) by (split; [apply Z.div_pos | apply Z.div_lt_upper_bound]; lia).
  lia.
Qed.

Lemma expand10_strict_mono (v1 v2 : Z) :
  0 <= v1 < 256 -> 0 <= v2 < 256 -> v1 < v2 -> expand10 v1 < expand10 v2.
Proof.
  intros H1 H2 Hlt. rewrite !expand10_arith by assumption.
  assert (v1 / 64 <= v2 / 64) by (apply Z.div_le_mono; lia).
  lia.
Qed.

(** ** What a commit does *)

Section Commit.

Variable fault : Faults.

Lemma write_scaler_raises (o : t) (tr : Trace) (e : exn) :
  apply_scaler (scaler o) (color o) = Raise e ->
  write fault (mkWorld o tr) = (Raise e, mkWorld o tr).
Proof.
  intros H. unfold write, bind, gets, lift. cbn [self hw].
  unfold color in H. rewrite H. reflexivity.
Qed.

Lemma write_push (o : t) (tr : Trace) (p : Pixel) :
  apply_scaler (scaler o) (color o) = Ok p ->
  write fault (mkWorld o tr) =
  (fst (push fault (duty_calls o p) tr),
   mkWorld o (snd (push fault (duty_calls o p) tr))).
Proof.
  intros H. destruct p as [[r g] b].
  unfold write, bind, gets, lift, duty, call. cbn [self hw].
  unfold color in H. rewrite H. cbn.
  destruct (fault (PWM_duty (px (red o)) (expand10 r)) tr); cbn; [reflexivity|].
  destruct (fault (PWM_duty (px (green o)) (expand10 g)) _); cbn; [reflexivity|].
  destruct (fault (PWM_duty (px (blue o)) (expand10 b)) _); cbn; reflexivity.
Qed.

Lemma push_trace (cs : list HwCall) :
  forall tr, exists k : nat,
    snd (push fault cs tr) = tr ++ firstn k cs /\
    (fst (push fault cs tr) = Ok tt -> firstn k cs = cs).
Proof.
  induction cs as [| c cs IH]; intros tr; cbn.
  - exists 0%nat. rewrite app_nil_r. split; reflexivity.
  - destruct (fault c tr) as [e |].
    + exists 1%nat. cbn. split; [reflexivity | discriminate].
    + destruct (IH (tr ++ [c])) as [k [Hk Hok]].
      exists (S k). cbn. rewrite Hk, <- app_assoc. cbn.
      split; [reflexivity |]. intros H. rewrite (Hok H). reflexivity.
Qed.

Lemma push_no_fault_here (cs : list HwCall) :
  forall tr, fst (push fault cs tr) = Ok tt -> snd (push fault cs tr) = tr ++ cs.
Proof.
  intros tr H. destruct (push_trace cs tr) as [k [Hk Hok]].
  rewrite Hk, (Hok H). reflexivity.
Qed.

Lemma write_preserves_self (w : World) :
  self (snd (write fault w)) = self w.
Proof.
  destruct w as [o tr].
  destruct (apply_scaler (scaler o) (color o)) as [p | e] eqn:H.
  - rewrite (write_push o tr p H). reflexivity.
  - rewrite (write_scaler_raises o tr e H). reflexivity.
Qed.

End Commit.

Lemma push_never_faults (fault : Faults) (cs : list HwCall) :
  (forall c t, fault c t = None) ->
  forall tr, push fault cs tr = (Ok tt, tr ++ cs).
Proof.
  intros Hnf. induction cs as [| c cs IH]; intros tr; cbn.
  - rewrite app_nil_r. reflexivity.
  - rewrite Hnf, IH, <- app_assoc. reflexivity.
Qed.

Lemma push_no_fault (cs : list HwCall) (tr : Trace) :
  push no_fault cs tr = (Ok tt, tr ++ cs).
Proof. apply push_never_faults. reflexivity. Qed.

(** ** Rounding and the linear scaler *)

Lemma round_half_even_nearest (m : positive) (e : Z) :
  nearest_integer m e (round_half_even m e).
Proof.
  unfold nearest_integer, round_half_even.
  destruct (Z.leb_spec 0 e) as [He | He]; [reflexivity |].
  cbv zeta.
  rewrite Z.shiftr_div_pow2, Z.land_ones by lia.
  assert (Hpow : 2 ^ (- e) = 2 * 2 ^ (- e - 1)).
  { replace (- e) with (Z.succ (- e - 1)) at 1 by lia.
    apply Z.pow_succ_r. lia. }
  assert (Hh : 0 < 2 ^ (- e - 1)) by (apply Z.pow_pos_nonneg; lia).
  set (h := 2 ^ (- e - 1)) in *.
  set (P := 2 ^ (- e)) in *.
  assert (Hdm : Z.pos m = P * (Z.pos m / P) + Z.pos m mod P)
    by (apply Z.div_mod; lia).
  assert (Hr : 0 <= Z.pos m mod P < P) by (apply Z.mod_pos_bound; lia).
  set (q := Z.pos m / P) in *.
  set (r := Z.pos m mod P) in *.
  destruct (Z.ltb_spec r h) as [Hlt | Hge].
  - rewrite Hdm. nia.
  - destruct (Z.ltb_spec h r) as [Hgt | Hle].
    + rewrite Hdm. nia.
    + destruct (Z.even q); rewrite Hdm; nia.
Qed.

Lemma round_nearest (x : float) (n : Z) :
  round x = Ok n -> nearest_to x n.
Proof.
  unfold round, nearest_to.
  destruct (Prim2SF x) as [s | s | | s m e]; intros H;
    try discriminate; injection H as <-.
  - reflexivity.
  - destruct s; [rewrite Z.opp_involutive |]; apply round_half_even_nearest.
Qed.

Lemma scaled_channel_nearest (v : Z) (m : float) (n : Z) :
  scaled_channel v m = Ok n ->
  exists x, float_of_int v = Ok x /\ round (PrimFloat.mul x m) = Ok n /\
            nearest_to (PrimFloat.mul x m) n.
Proof.
  unfold scaled_channel, int_mul_float.
  destruct (float_of_int v) as [x |]; cbn [rbind]; [| discriminate].
  intros H. exists x. repeat split; [exact H | apply round_nearest; exact H].
Qed.

(** The 256 channel values, for properties checked value by value. *)
Lemma byte_cases (P : Z -> bool) :
  forallb P (map Z.of_nat (seq 0 256)) = true ->
  forall v, 0 <= v < 256 -> P v = true.
Proof.
  intros H v Hv. rewrite forallb_forall in H. apply H.
  rewrite <- (Z2Nat.id v) by lia.
  apply in_map, in_seq. lia.
Qed.

(** A channel value converts to a float without loss. *)
Lemma float_of_int_byte_exact (v : Z) :
  0 <= v < 256 -> rbind (float_of_int v) round = Ok v.
Proof.
  intros Hv.
  pose (P := fun v => match rbind (float_of_int v) round with
                      | Ok n => n =? v
                      | Raise _ => false
                      end).
  assert (HP : P v = true) by (apply byte_cases; [vm_compute; reflexivity | exact Hv]).
  unfold P in HP.
  destruct (rbind (float_of_int v) round) as [n |]; [| discriminate].
  apply Z.eqb_eq in HP. subst n. reflexivity.
Qed.

Lemma float_of_int_zero : float_of_int 0 = Ok 0%float.
Proof. reflexivity. Qed.

Lemma round_mul_zero (m : float) (n : Z) :
  rbind (int_mul_float 0 m) round = Ok n -> n = 0.
Proof.
  unfold int_mul_float. rewrite float_of_int_zero. cbn [rbind].
  unfold round. rewrite FloatAxioms.mul_spec.
  change (Prim2SF 0%float) with (S754_zero false).
  destruct (Prim2SF m) as [s | s | | s mm e]; cbn; intros H;
    try discriminate; injection H as <-; reflexivity.
Qed.

Lemma apply_linear_zero (m0 m1 m2 : float) (p : Pixel) :
  apply_scaler (Linear m0 m1 m2) (0, 0, 0) = Ok p -> p = (0, 0, 0).
Proof.
  cbn [apply_scaler].
  destruct (rbind (int_mul_float 0 m0) round) as [r |] eqn:H0; [| discriminate].
  destruct (rbind (int_mul_float 0 m1) round) as [g |] eqn:H1; [| discriminate].
  destruct (rbind (int_mul_float 0 m2) round) as [b |] eqn:H2; [| discriminate].
  cbn [rbind]. intros H. injection H as <-.
  rewrite (round_mul_zero _ _ H0), (round_mul_zero _ _ H1), (round_mul_zero _ _ H2).
  reflexivity.
Qed.

(** ** The claims *)

(** C1.  For every value [v] in [0,255], the 8-to-10-bit expansion that
    [write] applies is [(v << 2) | (v >> 6)]: the value followed by a copy of
    its two top bits, which is [4 * v + v / 64] and lies in [0,1023].  It
    sends 0 to 0 and 255 to 1023, and it is monotonic (even strictly) on
    [0,255].  The duty a commit hands to a channel is this expansion of the
    scaled value. *)
Theorem expand10_law (v : Z) (Hv : 0 <= v <= 255) :
  expand10 v = Z.lor (Z.shiftl v 2) (Z.shiftr v 6) /\
  expand10 v = 4 * v + v / 64 /\
  0 <= expand10 v <= 1023 /\
  expand10 0 = 0 /\
  expand10 255 = 1023 /\
  (forall v2, v < v2 <= 255 ->
     expand10 v <= expand10 v2 /\ expand10 v < expand10 v2) /\
  (forall o tr g b,
     apply_scaler (scaler o) (color o) = Ok (v, g, b) ->
     write no_fault (mkWorld o tr) =
     (Ok tt,
      mkWorld o (tr ++ [PWM_duty (px (red o)) (Z.lor (Z.shiftl v 2) (Z.shiftr v 6));
                        PWM_duty (px (green o)) (Z.lor (Z.shiftl g 2) (Z.shiftr g 6));
                        PWM_duty (px (blue o)) (Z.lor (Z.shiftl b 2) (Z.shiftr b 6))]))).
Proof.
  repeat split.
  - apply expand10_arith. lia.
  - apply expand10_range. lia.
  - apply expand10_range. lia.
  - apply Z.lt_le_incl, expand10_strict_mono; lia.
  - apply expand10_strict_mono; lia.
  - intros o tr g b H.
    rewrite (write_push no_fault o tr (v, g, b) H), push_no_fault.
    reflexivity.
Qed.

Lemma expand10_law_witness :
  0 <= 128 <= 255 /\ expand10 128 = 4 * 128 + 128 / 64.
Proof.
  split; [lia | apply (expand10_law 128); lia].
Defined.

(** C2.  For every triple [(a, b, c)] of integers, negative or above 255
    included, [px[0] = (a, b, c)] succeeds and [px[0]] then returns
    [(normalize a, normalize b, normalize c)], each component in [0,255].
    The rule [((x % 256) + 256) % 256] gives Python's [x % 256] whether its
    [%] is read as the floor modulo or as the truncating remainder. *)
Theorem setitem_getitem_normalized (w : World) (a b c : Z) :
  exists w',
    __setitem__ 0 [a; b; c] w = (Ok tt, w') /\
    __getitem__ 0 w' = (Ok (normalize a, normalize b, normalize c), w') /\
    (0 <= normalize a <= 255 /\ 0 <= normalize b <= 255 /\ 0 <= normalize c <= 255) /\
    (normalize a = a mod 256 /\ normalize b = b mod 256 /\ normalize c = c mod 256) /\
    (normalize_rem a = a mod 256 /\ normalize_rem b = b mod 256 /\
     normalize_rem c = c mod 256).
Proof.
  assert (Hn : forall x, normalize x = x mod 256).
  { intros x. unfold normalize.
    rewrite Z.add_mod, Z.mod_mod, Z.mod_same, Z.add_0_r, Z.mod_mod by lia.
    reflexivity. }
  assert (Hr : forall x, normalize_rem x = x mod 256).
  { intros x. unfold normalize_rem.
    assert (Hx := Z.rem_bound_abs x 256).
    assert (Hq := Z.quot_rem' x 256).
    assert (Hb : 0 <= Z.rem x 256 + 256 \/ Z.rem x 256 + 256 < 0) by lia.
    pose proof (Z.mod_pos_bound x 256 ltac:(lia)) as Hm.
    pose proof (Z.div_mod x 256 ltac:(lia)) as Hd.
    pose proof (Z.quot_rem' (Z.rem x 256 + 256) 256) as Hq2.
    pose proof (Z.rem_bound_abs (Z.rem x 256 + 256) 256) as Hx2.
    assert (Hs : 0 <= Z.rem x 256 + 256) by lia.
    pose proof (Z.rem_nonneg (Z.rem x 256 + 256) 256 ltac:(lia) Hs) as Hnn.
    lia. }
  assert (Hb : forall x, 0 <= x mod 256 <= 255).
  { intros x. pose proof (Z.mod_pos_bound x 256 ltac:(lia)). lia. }
  eexists. split; [| split].
  - unfold __setitem__, bind, lift, on_self, modify, subscript. cbn. reflexivity.
  - unfold __getitem__, gets, color. cbn. rewrite !Hn. reflexivity.
  - rewrite !Hn, !Hr. repeat split; try apply Hb.
Qed.

(** C6.  For every index other than 0, negative ones included, both
    [px[index]] and [px[index] = value] raise [IndexError], and leave the
    instance (stored colour, scaler, PWM objects) and the hardware as they
    were. *)
Theorem index_out_of_range (index : Z) (value : list Z) (w : World)
  (Hindex : index <> 0) :
  __getitem__ index w = (Raise (IndexError "Strip index out of range"), w) /\
  __setitem__ index value w = (Raise (IndexError "Strip index out of range"), w).
Proof.
  unfold __getitem__, __setitem__.
  destruct (Z.eqb_spec index 0) as [E | _]; [contradiction |].
  split; reflexivity.
Qed.

Lemma index_out_of_range_witness :
  -1 <> 0 /\
  __getitem__ (-1) (mkWorld (nano NoScaler (1, 2, 3)) []) =
  (Raise (IndexError "Strip index out of range"),
   mkWorld (nano NoScaler (1, 2, 3)) []).
Proof.
  split; [lia | apply (index_out_of_range (-1) [7; 8; 9]); lia].
Defined.

(** C7.  The constructor called with [n] other than 1, or with [bpp] other
    than 3, raises [ValueError] and returns no instance; it does so before
    any call to the hardware: no PWM object is created and nothing is
    committed. *)
Theorem invalid_configuration (fault : Faults) (a : Args) (tr : Trace)
  (Hbad : arg_n a <> 1 \/ arg_bpp a <> 3) :
  exists msg, __init__ fault a tr = (Raise (ValueError msg), tr).
Proof.
  unfold __init__.
  destruct (Z.eqb_spec (arg_n a) 1) as [En | Nn]; cbn [negb].
  - destruct (Z.eqb_spec (arg_bpp a) 3) as [Eb | Nb]; cbn [negb].
    + destruct Hbad; contradiction.
    + eexists. reflexivity.
  - eexists. reflexivity.
Qed.

Lemma invalid_configuration_witness :
  (2 <> 1 \/ 3 <> 3) /\
  exists msg,
    __init__ no_fault (mkArgs 46 0 45 2 3 None true 5000 NoScaler) [] =
    (Raise (ValueError msg), []).
Proof.
  split; [left; lia |].
  apply (invalid_configuration no_fault (mkArgs 46 0 45 2 3 None true 5000 NoScaler) []).
  left. cbn. lia.
Defined.

(** C8.  [px[index] = value] makes no call to the hardware, whatever the
    index and the value, and leaves the scaler and the three PWM objects
    as they were; with index 0 and a triple it succeeds and changes the
    stored colour only. *)
Theorem setitem_no_hardware_write (index : Z) (value : list Z) (w : World) :
  let w' := snd (__setitem__ index value w) in
  hw w' = hw w /\
  scaler (self w') = scaler (self w) /\
  px (red (self w')) = px (red (self w)) /\
  px (green (self w')) = px (green (self w)) /\
  px (blue (self w')) = px (blue (self w)) /\
  (forall a b c, index = 0 -> value = [a; b; c] ->
     __setitem__ index value w =
     (Ok tt,
      mkWorld (instance (scaler (self w)) (a mod 256, b mod 256, c mod 256)
                 (px (red (self w))) (px (green (self w))) (px (blue (self w))))
              (hw w))).
Proof.
  cbv zeta. split; [| split; [| split; [| split; [| split]]]].
  1-5: unfold __setitem__;
    destruct (Z.eqb_spec index 0); cbn [negb]; [| reflexivity];
    destruct value as [| a [| b [| c rest]]]; reflexivity.
  intros a b c -> ->. reflexivity.
Qed.

(** C10.  [px[0] = value] with a value of fewer than three components
    raises [IndexError], makes no call to the hardware, and is not atomic
    in its value: a one-component value has overwritten the stored red, a
    two-component value the stored red and green, with the normalised
    input; the other components (and all three for the empty value) keep
    what they held. *)
Theorem setitem_short_value_partial (value : list Z) (w : World)
  (Hshort : (List.length value < 3)%nat) :
  exists w',
    __setitem__ 0 value w = (Raise (IndexError "tuple index out of range"), w') /\
    hw w' = hw w /\
    self w' =
    match value with
    | [] => self w
    | [a] => set_red_value (a mod 256) (self w)
    | a :: b :: _ => set_green_value (b mod 256) (set_red_value (a mod 256) (self w))
    end.
Proof.
  destruct w as [o tr].
  destruct value as [| a [| b [| c rest]]]; cbn in Hshort; try lia;
    eexists; cbn; repeat split; reflexivity.
Qed.

Lemma setitem_short_value_partial_witness :
  (List.length [300; -5]%Z < 3)%nat /\
  exists w',
    __setitem__ 0 [300; -5] (mkWorld (nano NoScaler (1, 2, 3)) []) =
    (Raise (IndexError "tuple index out of range"), w') /\
    hw w' = [] /\
    self w' = nano NoScaler (44, 251, 3).
Proof.
  split; [cbn; lia |].
  apply (setitem_short_value_partial [300; -5] (mkWorld (nano NoScaler (1, 2, 3)) [])).
  cbn; lia.
Defined.

(** C3.  With a linear scaler [(m0, m1, m2)], a commit multiplies each
    stored channel value by its multiplier, rounds the product to a nearest
    integer, and hands each channel the expansion of its scaled value.  With
    the scaler (0.1, 0.4, 0.9) and the stored colour (100, 100, 100) the
    scaled values are exactly 10, 40 and 90, and the duties 40, 160 and
    361. *)
Theorem linear_scaler_commit (m0 m1 m2 : float) (o : t) (tr : Trace) (r g b : Z)
  (Hs : scaler o = Linear m0 m1 m2)
  (Hr : scaled_channel (value (red o)) m0 = Ok r)
  (Hg : scaled_channel (value (green o)) m1 = Ok g)
  (Hb : scaled_channel (value (blue o)) m2 = Ok b) :
  apply_scaler (scaler o) (color o) = Ok (r, g, b) /\
  write no_fault (mkWorld o tr) =
  (Ok tt,
   mkWorld o (tr ++ [PWM_duty (px (red o)) (expand10 r);
                     PWM_duty (px (green o)) (expand10 g);
                     PWM_duty (px (blue o)) (expand10 b)])) /\
  (exists x0 x1 x2,
     float_of_int (value (red o)) = Ok x0 /\
     float_of_int (value (green o)) = Ok x1 /\
     float_of_int (value (blue o)) = Ok x2 /\
     nearest_to (PrimFloat.mul x0 m0) r /\
     nearest_to (PrimFloat.mul x1 m1) g /\
     nearest_to (PrimFloat.mul x2 m2) b) /\
  apply_scaler test_linear (100, 100, 100) = Ok (10, 40, 90) /\
  write no_fault (mkWorld (nano test_linear (100, 100, 100)) []) =
  (Ok tt,
   mkWorld (nano test_linear (100, 100, 100))
     [PWM_duty nano_red 40; PWM_duty nano_green 160; PWM_duty nano_blue 361]).
Proof.
  assert (Ha : apply_scaler (scaler o) (color o) = Ok (r, g, b)).
  { rewrite Hs. unfold color. cbn [apply_scaler].
    unfold scaled_channel in Hr, Hg, Hb. rewrite Hr. cbn [rbind].
    rewrite Hg. cbn [rbind]. rewrite Hb. reflexivity. }
  split; [exact Ha |]. split.
  { rewrite (write_push no_fault o tr (r, g, b) Ha), push_no_fault. reflexivity. }
  split.
  { destruct (scaled_channel_nearest _ _ _ Hr) as [x0 [F0 [_ N0]]].
    destruct (scaled_channel_nearest _ _ _ Hg) as [x1 [F1 [_ N1]]].
    destruct (scaled_channel_nearest _ _ _ Hb) as [x2 [F2 [_ N2]]].
    exists x0, x1, x2. repeat split; assumption. }
  split; vm_compute; reflexivity.
Qed.

Lemma linear_scaler_commit_witness :
  scaler (nano test_linear (100, 100, 100)) = test_linear /\
  scaled_channel 100 0x1.999999999999ap-4%float = Ok 10 /\
  scaled_channel 100 0x1.999999999999ap-2%float = Ok 40 /\
  scaled_channel 100 0x1.ccccccccccccdp-1%float = Ok 90 /\
  apply_scaler (scaler (nano test_linear (100, 100, 100)))
    (color (nano test_linear (100, 100, 100))) = Ok (10, 40, 90).
Proof.
  split; [reflexivity |].
  split; [vm_compute; reflexivity |].
  split; [vm_compute; reflexivity |].
  split; [vm_compute; reflexivity |].
  apply (linear_scaler_commit
           0x1.999999999999ap-4%float 0x1.999999999999ap-2%float
           0x1.ccccccccccccdp-1%float
           (nano test_linear (100, 100, 100)) [] 10 40 90);
    vm_compute; reflexivity.
Defined.

(** C4.  A commit makes its duty calls in the order red, green, blue.  A
    call that raises ends the commit at once with that exception: the call
    is not made again, the remaining channels are not called, and the
    calls already made stay made. *)
Theorem commit_order_and_failure (fault : Faults) (o : t) (tr : Trace) (r g b : Z)
  (Hscaled : apply_scaler (scaler o) (color o) = Ok (r, g, b)) :
  let c1 := PWM_duty (px (red o)) (expand10 r) in
  let c2 := PWM_duty (px (green o)) (expand10 g) in
  let c3 := PWM_duty (px (blue o)) (expand10 b) in
  (fault c1 tr = None -> fault c2 (tr ++ [c1]) = None ->
   fault c3 (tr ++ [c1; c2]) = None ->
   write fault (mkWorld o tr) = (Ok tt, mkWorld o (tr ++ [c1; c2; c3]))) /\
  (forall e, fault c1 tr = Some e ->
   write fault (mkWorld o tr) = (Raise e, mkWorld o (tr ++ [c1]))) /\
  (forall e, fault c1 tr = None -> fault c2 (tr ++ [c1]) = Some e ->
   write fault (mkWorld o tr) = (Raise e, mkWorld o (tr ++ [c1; c2]))) /\
  (forall e, fault c1 tr = None -> fault c2 (tr ++ [c1]) = None ->
   fault c3 (tr ++ [c1; c2]) = Some e ->
   write fault (mkWorld o tr) = (Raise e, mkWorld o (tr ++ [c1; c2; c3]))).
Proof.
  cbv zeta. rewrite (write_push fault o tr (r, g, b) Hscaled).
  cbn [duty_calls push].
  assert (A2 : forall x y : HwCall, (tr ++ [x]) ++ [y] = tr ++ [x; y])
    by (intros; rewrite <- app_assoc; reflexivity).
  assert (A3 : forall x y z : HwCall, (tr ++ [x; y]) ++ [z] = tr ++ [x; y; z])
    by (intros; rewrite <- app_assoc; reflexivity).
  repeat split.
  - intros F1 F2 F3. rewrite F1, F2, A2, F3. cbn. rewrite A3. reflexivity.
  - intros e F1. rewrite F1. reflexivity.
  - intros e F1 F2. rewrite F1, F2. cbn. rewrite A2. reflexivity.
  - intros e F1 F2 F3. rewrite F1, F2, A2, F3. cbn. rewrite A3. reflexivity.
Qed.

Lemma commit_order_and_failure_witness :
  apply_scaler (scaler (nano NoScaler (255, 0, 128)))
    (color (nano NoScaler (255, 0, 128))) = Ok (255, 0, 128) /\
  write (faulty_pin 0) (mkWorld (nano NoScaler (255, 0, 128)) []) =
  (Raise (OSError 5),
   mkWorld (nano NoScaler (255, 0, 128))
     [PWM_duty nano_red 1023; PWM_duty nano_green 0]).
Proof.
  split; [reflexivity |].
  exact (proj1 (proj2 (proj2
           (commit_order_and_failure (faulty_pin 0)
              (nano NoScaler (255, 0, 128)) [] 255 0 128 eq_refl)))
           (OSError 5) eq_refl eq_refl).
Defined.

(** ** Construction *)

Lemma bind_run {S A B : Type} (m : M S A) (k : A -> M S B) (s : S) :
  bind m k s =
  match m s with
  | (Ok a, s') => k a s'
  | (Raise e, s') => (Raise e, s')
  end.
Proof. reflexivity. Qed.

Lemma new_PWM_run (fault : Faults) (pin : Pin) (freq d : Z) (invert : bool)
  (tr : Trace) :
  new_PWM fault pin freq d invert tr =
  match fault (PWM_new (mkPWM pin freq invert) d) tr with
  | Some e => (Raise e, tr ++ [PWM_new (mkPWM pin freq invert) d])
  | None => (Ok (mkPWM pin freq invert), tr ++ [PWM_new (mkPWM pin freq invert) d])
  end.
Proof.
  unfold new_PWM, bind, call, ret.
  destruct (fault _ tr); reflexivity.
Qed.

Lemma init_success (fault : Faults) (a : Args) (tr tr' : Trace) (o : t) :
  __init__ fault a tr = (Ok o, tr') ->
  let pr := mkPWM (arg_red a) (arg_freq a) (arg_invert a) in
  let pg := mkPWM (arg_green a) (arg_freq a) (arg_invert a) in
  let pb := mkPWM (arg_blue a) (arg_freq a) (arg_invert a) in
  arg_n a = 1 /\ arg_bpp a = 3 /\
  o = instance (arg_scaler a) (0, 0, 0) pr pg pb /\
  exists p,
    apply_scaler (arg_scaler a) (0, 0, 0) = Ok p /\
    tr' = tr ++ [PWM_new pr 0; PWM_new pg 0; PWM_new pb 0] ++ duty_calls o p.
Proof.
  cbv zeta. unfold __init__.
  destruct (Z.eqb_spec (arg_n a) 1) as [En |]; cbn [negb]; [| discriminate].
  destruct (Z.eqb_spec (arg_bpp a) 3) as [Eb |]; cbn [negb]; [| discriminate].
  rewrite bind_run, new_PWM_run.
  destruct (fault _ tr); [discriminate |]. cbv beta iota.
  rewrite bind_run, new_PWM_run.
  destruct (fault _ (tr ++ _)); [discriminate |]. cbv beta iota.
  rewrite bind_run, new_PWM_run.
  destruct (fault _ ((tr ++ _) ++ _)); [discriminate |]. cbv beta iota.
  match goal with
  | |- context [write fault (mkWorld ?i ?h)] => set (o0 := i); set (tr0 := h)
  end.
  destruct (apply_scaler (scaler o0) (color o0)) as [p | e] eqn:Hp.
  - rewrite (write_push fault o0 tr0 p Hp). cbn [self hw fst snd].
    destruct (fst (push fault (duty_calls o0 p) tr0)) as [[] | e] eqn:Hpush;
      [| discriminate].
    rewrite (push_no_fault_here fault _ _ Hpush).
    intros H. injection H as <- <-.
    repeat split; try assumption.
    exists p. split; [exact Hp |].
    unfold tr0. rewrite <- !app_assoc. reflexivity.
  - rewrite (write_scaler_raises fault o0 tr0 e Hp). discriminate.
Qed.

(** C5, as the code has it.  A successful construction, with any scaler,
    leaves the stored colour at (0, 0, 0) and has made exactly these calls:
    the three PWM objects created with duty 0, then one commit, whose duties
    are the expansion of what the scaler makes of (0, 0, 0).  Without a
    scaler, with a linear scaler, and with a scaler function that keeps
    black black, that is duty 0 on the three channels. *)
Theorem construction_commits_once (fault : Faults) (a : Args) (tr tr' : Trace) (o : t)
  (Hok : __init__ fault a tr = (Ok o, tr')) :
  color o = (0, 0, 0) /\
  scaler o = arg_scaler a /\
  (exists r g b,
     apply_scaler (arg_scaler a) (0, 0, 0) = Ok (r, g, b) /\
     tr' = tr ++ [PWM_new (px (red o)) 0; PWM_new (px (green o)) 0;
                  PWM_new (px (blue o)) 0;
                  PWM_duty (px (red o)) (expand10 r);
                  PWM_duty (px (green o)) (expand10 g);
                  PWM_duty (px (blue o)) (expand10 b)]) /\
  (black_to_black (arg_scaler a) ->
   tr' = tr ++ [PWM_new (px (red o)) 0; PWM_new (px (green o)) 0;
                PWM_new (px (blue o)) 0;
                PWM_duty (px (red o)) 0; PWM_duty (px (green o)) 0;
                PWM_duty (px (blue o)) 0]).
Proof.
  destruct (init_success fault a tr tr' o Hok) as [_ [_ [Ho [p [Hp Htr]]]]].
  destruct p as [[r g] b].
  assert (Hpx : PWM_new (mkPWM (arg_red a) (arg_freq a) (arg_invert a)) 0 =
                PWM_new (px (red o)) 0 /\
                PWM_new (mkPWM (arg_green a) (arg_freq a) (arg_invert a)) 0 =
                PWM_new (px (green o)) 0 /\
                PWM_new (mkPWM (arg_blue a) (arg_freq a) (arg_invert a)) 0 =
                PWM_new (px (blue o)) 0)
    by (rewrite Ho; repeat split; reflexivity).
  destruct Hpx as [P1 [P2 P3]]. rewrite P1, P2, P3 in Htr.
  split; [rewrite Ho; reflexivity |].
  split; [rewrite Ho; reflexivity |].
  split; [exists r, g, b; split; [exact Hp | exact Htr] |].
  intros Hbb.
  assert (Hz : (r, g, b) = (0, 0, 0)).
  { destruct (arg_scaler a) as [| m0 m1 m2 | f].
    - cbn in Hp. injection Hp as <- <- <-. reflexivity.
    - apply (apply_linear_zero m0 m1 m2). exact Hp.
    - cbn in Hp, Hbb. rewrite Hbb in Hp. injection Hp as <- <- <-. reflexivity. }
  injection Hz as -> -> ->. exact Htr.
Qed.

Lemma construction_commits_once_witness :
  __init__ no_fault (nano_args test_linear) [] =
  (Ok (nano test_linear (0, 0, 0)),
   [PWM_new nano_red 0; PWM_new nano_green 0; PWM_new nano_blue 0;
    PWM_duty nano_red 0; PWM_duty nano_green 0; PWM_duty nano_blue 0]) /\
  color (nano test_linear (0, 0, 0)) = (0, 0, 0).
Proof.
  assert (H : __init__ no_fault (nano_args test_linear) [] =
              (Ok (nano test_linear (0, 0, 0)),
               [PWM_new nano_red 0; PWM_new nano_green 0; PWM_new nano_blue 0;
                PWM_duty nano_red 0; PWM_duty nano_green 0; PWM_duty nano_blue 0]))
    by (vm_compute; reflexivity).
  split; [exact H |].
  apply (construction_commits_once no_fault (nano_args test_linear) [] _ _ H).
Defined.

(** C5 as stated fails: constructed with a scaler function that does not
    keep black black, the instance is built, its stored colour is
    (0, 0, 0), and the commit of the construction hands every channel the
    duty 1023, full on. *)
Lemma construction_bright_scaler_not_off :
  __init__ no_fault (nano_args (Functional bright_scaler)) [] =
  (Ok (nano (Functional bright_scaler) (0, 0, 0)),
   [PWM_new nano_red 0; PWM_new nano_green 0; PWM_new nano_blue 0;
    PWM_duty nano_red 1023; PWM_duty nano_green 1023; PWM_duty nano_blue 1023]) /\
  ~ (forall (a : Args) (o : t) (tr' : Trace),
       __init__ no_fault a [] = (Ok o, tr') ->
       forall p v, In (PWM_duty p v) tr' -> v = 0).
Proof.
  assert (H : __init__ no_fault (nano_args (Functional bright_scaler)) [] =
              (Ok (nano (Functional bright_scaler) (0, 0, 0)),
               [PWM_new nano_red 0; PWM_new nano_green 0; PWM_new nano_blue 0;
                PWM_duty nano_red 1023; PWM_duty nano_green 1023;
                PWM_duty nano_blue 1023]))
    by reflexivity.
  split; [exact H |].
  intros C. specialize (C _ _ _ H nano_red 1023).
  assert (E : 1023 = 0) by (apply C; cbn; auto).
  discriminate E.
Qed.

(** ** Two commits in a row *)

Lemma write_calls (fault : Faults) (w : World) :
  exists k : nat,
    hw (snd (write fault w)) = hw w ++ firstn k (commit_calls (self w)) /\
    (fst (write fault w) = Ok tt ->
     firstn k (commit_calls (self w)) = commit_calls (self w)) /\
    ((forall c t, fault c t = None) ->
     firstn k (commit_calls (self w)) = commit_calls (self w)).
Proof.
  destruct w as [o tr]. unfold commit_calls. cbn [self hw].
  destruct (apply_scaler (scaler o) (color o)) as [p | e] eqn:H.
  - rewrite (write_push fault o tr p H). cbn [fst snd hw].
    destruct (push_trace fault (duty_calls o p) tr) as [k [Hk Hok]].
    exists k. split; [exact Hk |]. split; [exact Hok |].
    intros Hnf. apply Hok. rewrite (push_never_faults fault _ Hnf). reflexivity.
  - rewrite (write_scaler_raises fault o tr e H). cbn [fst snd hw].
    exists 0%nat. rewrite app_nil_r. repeat split.
Qed.

(** C9.  A commit changes neither the stored colour nor the scaler (nor
    anything else of the instance), and the duty calls it makes are a
    function of the instance alone.  So two commits in a row, with no set in
    between, that both return make the same three duty calls; on a hardware
    that never faults they make the same calls whatever the scaler does.  (A
    commit cut short by a fault has made a prefix of those calls.) *)
Theorem commit_twice_same_calls (fault : Faults) (w w1 w2 : World)
  (r1 r2 : result unit)
  (H1 : write fault w = (r1, w1))
  (H2 : write fault w1 = (r2, w2)) :
  self w1 = self w /\ self w2 = self w /\
  exists (c1 c2 : list HwCall) (k1 k2 : nat),
    hw w1 = hw w ++ c1 /\ hw w2 = hw w1 ++ c2 /\
    c1 = firstn k1 (commit_calls (self w)) /\
    c2 = firstn k2 (commit_calls (self w)) /\
    (r1 = Ok tt -> r2 = Ok tt -> c1 = c2 /\ c1 = commit_calls (self w)) /\
    ((forall c t, fault c t = None) -> c1 = c2 /\ c1 = commit_calls (self w)).
Proof.
  assert (S1 : self w1 = self w)
    by (rewrite <- (write_preserves_self fault w), H1; reflexivity).
  assert (S2 : self w2 = self w)
    by (rewrite <- S1, <- (write_preserves_self fault w1), H2; reflexivity).
  split; [exact S1 |]. split; [exact S2 |].
  destruct (write_calls fault w) as [k1 [T1 [O1 N1]]].
  destruct (write_calls fault w1) as [k2 [T2 [O2 N2]]].
  rewrite H1 in T1, O1. rewrite H2 in T2, O2. rewrite S1 in T2, O2, N2.
  cbn [fst snd] in *.
  exists (firstn k1 (commit_calls (self w))), (firstn k2 (commit_calls (self w))), k1, k2.
  split; [exact T1 |]. split; [exact T2 |].
  split; [reflexivity |]. split; [reflexivity |]. split.
  - intros R1 R2. rewrite (O1 R1), (O2 R2). split; reflexivity.
  - intros Hnf. rewrite (N1 Hnf), (N2 Hnf). split; reflexivity.
Qed.

Lemma commit_twice_same_calls_witness :
  write no_fault (mkWorld (nano (Functional swap_scaler) (255, 0, 128)) []) =
  (Ok tt,
   mkWorld (nano (Functional swap_scaler) (255, 0, 128))
     [PWM_duty nano_red 514; PWM_duty nano_green 0; PWM_duty nano_blue 1023]) /\
  write no_fault
    (mkWorld (nano (Functional swap_scaler) (255, 0, 128))
       [PWM_duty nano_red 514; PWM_duty nano_green 0; PWM_duty nano_blue 1023]) =
  (Ok tt,
   mkWorld (nano (Functional swap_scaler) (255, 0, 128))
     [PWM_duty nano_red 514; PWM_duty nano_green 0; PWM_duty nano_blue 1023;
      PWM_duty nano_red 514; PWM_duty nano_green 0; PWM_duty nano_blue 1023]) /\
  self (mkWorld (nano (Functional swap_scaler) (255, 0, 128))
          [PWM_duty nano_red 514; PWM_duty nano_green 0; PWM_duty nano_blue 1023]) =
  self (mkWorld (nano (Functional swap_scaler) (255, 0, 128)) []).
Proof.
  split; [reflexivity |]. split; [reflexivity |].
  apply (commit_twice_same_calls no_fault
           (mkWorld (nano (Functional swap_scaler) (255, 0, 128)) [])
           (mkWorld (nano (Functional swap_scaler) (255, 0, 128))
              [PWM_duty nano_red 514; PWM_duty nano_green 0; PWM_duty nano_blue 1023])
           (mkWorld (nano (Functional swap_scaler) (255, 0, 128))
              [PWM_duty nano_red 514; PWM_duty nano_green 0; PWM_duty nano_blue 1023;
               PWM_duty nano_red 514; PWM_duty nano_green 0; PWM_duty nano_blue 1023])
           (Ok tt) (Ok tt)); reflexivity.
Defined.

(** ** Beyond the claims: the expansion *)


(** X2.  The stored value can be read back from the duty: dropping the
    two low bits of the expansion of a channel value gives the value. *)
Theorem expand10_shiftr_inverse (v : Z) (Hv : 0 <= v <= 255) :
  Z.shiftr (expand10 v) 2 = v.
Proof.
  rewrite expand10_arith by lia.
  rewrite Z.shiftr_div_pow2 by lia. change (2 ^ 2) with 4.
  assert (0 <= v / 64 < 4)
    by (split; [apply Z.div_pos | apply Z.div_lt_upper_bound]; lia).
  symmetry. apply (Z.div_unique _ 4 v (v / 64)); lia.
Qed.

Lemma expand10_shiftr_inverse_witness :
  0 <= 200 <= 255 /\ Z.shiftr (expand10 200) 2 = 200.
Proof.
  split; [lia | apply (expand10_shiftr_inverse 200); lia].
Defined.

(** ** Beyond the claims: the store *)

Lemma mod_256_byte (x : Z) : byte (x mod 256).
Proof. unfold byte. pose proof (Z.mod_pos_bound x 256 ltac:(lia)). lia. Qed.

Lemma setitem_frame (index : Z) (value : list Z) (w : World) :
  hw (snd (__setitem__ index value w)) = hw w /\
  scaler (self (snd (__setitem__ index value w))) = scaler (self w) /\
  px (red (self (snd (__setitem__ index value w)))) = px (red (self w)) /\
  px (green (self (snd (__setitem__ index value w)))) = px (green (self w)) /\
  px (blue (self (snd (__setitem__ index value w)))) = px (blue (self w)).
Proof.
  unfold __setitem__.
  destruct (Z.eqb_spec index 0); cbn [negb]; [| repeat split; reflexivity].
  destruct value as [| a [| b [| c rest]]]; repeat split; reflexivity.
Qed.

Lemma setitem_keeps_bytes (index : Z) (value : list Z) (w : World) :
  byte_store (self w) -> byte_store (self (snd (__setitem__ index value w))).
Proof.
  unfold byte_store, byte_pixel, color, __setitem__. intros [Hr [Hg Hb]].
  destruct (Z.eqb_spec index 0); cbn [negb]; [| cbn; auto].
  destruct value as [| a [| b [| c rest]]]; cbn;
    refine (conj _ (conj _ _)); first [assumption | apply mod_256_byte].
Qed.

Lemma perform_keeps (fault : Faults) (c : MethodCall) (w : World) :
  (byte_store (self w) -> byte_store (self (perform fault c w))) /\
  scaler (self (perform fault c w)) = scaler (self w) /\
  px (red (self (perform fault c w))) = px (red (self w)) /\
  px (green (self (perform fault c w))) = px (green (self w)) /\
  px (blue (self (perform fault c w))) = px (blue (self w)).
Proof.
  destruct c as [index value | value | index | |]; cbn [perform].
  - split; [apply setitem_keeps_bytes |].
    exact (proj2 (setitem_frame index value w)).
  - split; [apply (setitem_keeps_bytes 0 value w) |].
    exact (proj2 (setitem_frame 0 value w)).
  - assert (E : snd (__getitem__ index w) = w)
      by (unfold __getitem__; destruct (negb (index =? 0)); reflexivity).
    rewrite E. split; [exact (fun H => H) | repeat split].
  - change (snd (__len__ w)) with w.
    split; [exact (fun H => H) | repeat split].
  - rewrite write_preserves_self.
    split; [exact (fun H => H) | repeat split].
Qed.

Lemma session_keeps (fault : Faults) (cs : list MethodCall) :
  forall w,
    (byte_store (self w) -> byte_store (self (session fault cs w))) /\
    scaler (self (session fault cs w)) = scaler (self w) /\
    px (red (self (session fault cs w))) = px (red (self w)) /\
    px (green (self (session fault cs w))) = px (green (self w)) /\
    px (blue (self (session fault cs w))) = px (blue (self w)).
Proof.
  induction cs as [| c cs IH]; intros w; unfold session; cbn [fold_left].
  - split; [exact (fun H => H) | repeat split].
  - destruct (perform_keeps fault c w) as [Pb [Ps [Pr [Pg Pbl]]]].
    destruct (IH (perform fault c w)) as [Ib [Is [Ir [Ig Ibl]]]].
    unfold session in Ib, Is, Ir, Ig, Ibl.
    split; [intros H; apply Ib, Pb, H |].
    repeat split; congruence.
Qed.

(** X3.  From a successful construction on, whatever methods are called in
    whatever order and with whatever arguments (wrong indices, short
    values and failing commits included), the three stored values stay
    within 0..255, and the scaler and the three PWM objects stay those of
    the construction. *)
Theorem store_invariant (fault : Faults) (a : Args) (tr tr' : Trace) (o : t)
  (cs : list MethodCall)
  (Hok : __init__ fault a tr = (Ok o, tr')) :
  let w := session fault cs (mkWorld o tr') in
  byte_store (self w) /\
  scaler (self w) = arg_scaler a /\
  px (red (self w)) = mkPWM (arg_red a) (arg_freq a) (arg_invert a) /\
  px (green (self w)) = mkPWM (arg_green a) (arg_freq a) (arg_invert a) /\
  px (blue (self w)) = mkPWM (arg_blue a) (arg_freq a) (arg_invert a).
Proof.
  cbv zeta.
  destruct (init_success fault a tr tr' o Hok) as [_ [_ [Ho _]]].
  destruct (session_keeps fault cs (mkWorld o tr')) as [Ib [Is [Ir [Ig Ibl]]]].
  cbn [self] in Ib, Is, Ir, Ig, Ibl.
  split.
  - apply Ib. rewrite Ho. unfold byte_store, byte_pixel, byte. cbn. lia.
  - rewrite Is, Ir, Ig, Ibl, Ho. repeat split; reflexivity.
Qed.

Lemma store_invariant_witness :
  __init__ no_fault (nano_args NoScaler) [] =
  (Ok (nano NoScaler (0, 0, 0)),
   [PWM_new nano_red 0; PWM_new nano_green 0; PWM_new nano_blue 0;
    PWM_duty nano_red 0; PWM_duty nano_green 0; PWM_duty nano_blue 0]) /\
  byte_store
    (self (session no_fault
             [Call_setitem 0 [300; -5]; Call_write; Call_setitem 1 [1; 2; 3];
              Call_fill [1000; 2000; 3000]; Call_getitem 0; Call_len]
             (mkWorld (nano NoScaler (0, 0, 0))
                [PWM_new nano_red 0; PWM_new nano_green 0; PWM_new nano_blue 0;
                 PWM_duty nano_red 0; PWM_duty nano_green 0; PWM_duty nano_blue 0]))).
Proof.
  split; [reflexivity |].
  apply (store_invariant no_fault (nano_args NoScaler) [] _ _
           [Call_setitem 0 [300; -5]; Call_write; Call_setitem 1 [1; 2; 3];
            Call_fill [1000; 2000; 3000]; Call_getitem 0; Call_len]).
  reflexivity.
Defined.

(** ** Beyond the claims: what the hardware is handed *)

Lemma Forall_firstn_of {A : Type} (P : A -> Prop) (k : nat) (l : list A) :
  Forall P l -> Forall P (firstn k l).
Proof.
  intros H. rewrite <- (firstn_skipn k l) in H.
  apply Forall_app in H. exact (proj1 H).
Qed.

Lemma commit_calls_in_range (o : t) :
  keeps_range (scaler o) -> byte_store o -> Forall duty_in_range (commit_calls o).
Proof.
  intros Hk Hb. unfold commit_calls.
  destruct (apply_scaler (scaler o) (color o)) as [[[r g] b] | e] eqn:H;
    [| constructor].
  destruct (Hk _ _ Hb H) as [Br [Bg Bb]].
  unfold duty_calls, byte in *.
  repeat constructor; cbn; apply expand10_range; lia.
Qed.

Lemma perform_calls_in_range (fault : Faults) (c : MethodCall) (w : World) :
  keeps_range (scaler (self w)) -> byte_store (self w) ->
  exists new, hw (perform fault c w) = hw w ++ new /\ Forall duty_in_range new.
Proof.
  intros Hk Hb.
  destruct c as [index value | value | index | |]; cbn [perform].
  - exists []. rewrite app_nil_r.
    split; [apply (setitem_frame index value w) | constructor].
  - exists []. rewrite app_nil_r.
    split; [apply (setitem_frame 0 value w) | constructor].
  - exists []. rewrite app_nil_r. split; [| constructor].
    unfold __getitem__. destruct (negb (index =? 0)); reflexivity.
  - exists []. rewrite app_nil_r. split; [reflexivity | constructor].
  - destruct (write_calls fault w) as [k [Hk' _]].
    exists (firstn k (commit_calls (self w))). split; [exact Hk' |].
    apply Forall_firstn_of, commit_calls_in_range; assumption.
Qed.

Lemma session_calls_in_range (fault : Faults) (cs : list MethodCall) :
  forall w,
    keeps_range (scaler (self w)) -> byte_store (self w) ->
    exists new, hw (session fault cs w) = hw w ++ new /\ Forall duty_in_range new.
Proof.
  induction cs as [| c cs IH]; intros w Hk Hb; unfold session; cbn [fold_left].
  - exists []. rewrite app_nil_r. split; [reflexivity | constructor].
  - destruct (perform_calls_in_range fault c w Hk Hb) as [n1 [E1 F1]].
    destruct (perform_keeps fault c w) as [Pb [Ps _]].
    destruct (IH (perform fault c w)) as [n2 [E2 F2]].
    + rewrite Ps. exact Hk.
    + apply Pb, Hb.
    + unfold session in E2. exists (n1 ++ n2).
      rewrite E2, E1, <- app_assoc. split; [reflexivity |].
      apply Forall_app. split; assumption.
Qed.

(** X4.  With a scaler that turns pixel values into pixel values (no
    scaler at all is one), every call the hardware receives, from the
    construction through any sequence of method calls, is a PWM created
    with duty 0 or a duty within 0..1023, whatever integers the program
    stores and whichever calls fail. *)
Theorem hardware_duties_in_range (fault : Faults) (a : Args) (tr tr' : Trace)
  (o : t) (cs : list MethodCall)
  (Hok : __init__ fault a tr = (Ok o, tr'))
  (Hscaler : keeps_range (arg_scaler a)) :
  exists new,
    hw (session fault cs (mkWorld o tr')) = tr ++ new /\
    Forall duty_in_range new.
Proof.
  destruct (init_success fault a tr tr' o Hok) as [_ [_ [Ho [p [Hp Htr]]]]].
  assert (Hb : byte_store o)
    by (rewrite Ho; unfold byte_store, byte_pixel, byte; cbn; lia).
  assert (Hs : scaler o = arg_scaler a) by (rewrite Ho; reflexivity).
  destruct (session_calls_in_range fault cs (mkWorld o tr')) as [new [E F]].
  - cbn [self]. rewrite Hs. exact Hscaler.
  - exact Hb.
  - cbn [hw] in E. rewrite E, Htr, <- !app_assoc.
    eexists. split; [reflexivity |].
    apply Forall_app. split; [| apply Forall_app; split; [| exact F]].
    + repeat constructor.
    + assert (Hc : commit_calls o = duty_calls o p).
      { unfold commit_calls. rewrite Hs.
        replace (color o) with ((0, 0, 0) : Pixel) by (rewrite Ho; reflexivity).
        rewrite Hp. reflexivity. }
      rewrite <- Hc. apply commit_calls_in_range; [rewrite Hs |]; assumption.
Qed.

Lemma keeps_range_NoScaler : keeps_range NoScaler.
Proof.
  intros [[r g] b] p' Hb H. cbn in H. injection H as <-. exact Hb.
Qed.

Lemma hardware_duties_in_range_witness :
  __init__ no_fault (nano_args NoScaler) [] =
  (Ok (nano NoScaler (0, 0, 0)),
   [PWM_new nano_red 0; PWM_new nano_green 0; PWM_new nano_blue 0;
    PWM_duty nano_red 0; PWM_duty nano_green 0; PWM_duty nano_blue 0]) /\
  keeps_range (arg_scaler (nano_args NoScaler)) /\
  exists new,
    hw (session no_fault [Call_fill [300; -5; 7]; Call_write]
          (mkWorld (nano NoScaler (0, 0, 0))
             [PWM_new nano_red 0; PWM_new nano_green 0; PWM_new nano_blue 0;
              PWM_duty nano_red 0; PWM_duty nano_green 0; PWM_duty nano_blue 0])) =
    [] ++ new /\
    Forall duty_in_range new.
Proof.
  split; [reflexivity |]. split; [exact keeps_range_NoScaler |].
  apply (hardware_duties_in_range no_fault (nano_args NoScaler) []
           [PWM_new nano_red 0; PWM_new nano_green 0; PWM_new nano_blue 0;
            PWM_duty nano_red 0; PWM_duty nano_green 0; PWM_duty nano_blue 0]
           (nano NoScaler (0, 0, 0)) [Call_fill [300; -5; 7]; Call_write]).
  - reflexivity.
  - exact keeps_range_NoScaler.
Defined.

(** ** Beyond the claims: the scalers *)

(** A multiplier checked on the 256 channel values: the scaled value
    exists, does not exceed the value nor [top]. *)
Lemma scaled_channel_bytes (c : float) (top : Z) :
  forallb (fun v => match scaled_channel v c with
                    | Ok n => (0 <=? n) && (n <=? v) && (n <=? top)
                    | Raise _ => false
                    end) (map Z.of_nat (seq 0 256)) = true ->
  forall v, byte v ->
    exists n, scaled_channel v c = Ok n /\ 0 <= n <= v /\ n <= top.
Proof.
  intros Hall v Hv.
  pose proof (byte_cases _ Hall v ltac:(unfold byte in Hv; lia)) as H.
  cbv beta in H.
  destruct (scaled_channel v c) as [n |]; [| discriminate].
  apply andb_prop in H. destruct H as [H H3].
  apply andb_prop in H. destruct H as [H1 H2].
  exists n. split; [reflexivity |]. lia.
Qed.

(** A multiplier checked on the neighbouring channel values: scaling
    keeps the order of any two. *)
Lemma scaled_channel_mono (c : float) :
  forallb (fun v =>
    if v <? 255 then
      match scaled_channel v c, scaled_channel (v + 1) c with
      | Ok n1, Ok n2 => n1 <=? n2
      | _, _ => false
      end
    else true) (map Z.of_nat (seq 0 256)) = true ->
  forall v1 v2 n1 n2, byte v1 -> byte v2 -> v1 <= v2 ->
    scaled_channel v1 c = Ok n1 -> scaled_channel v2 c = Ok n2 -> n1 <= n2.
Proof.
  intros Hall.
  assert (Hstep : forall v, 0 <= v < 255 ->
            exists m m', scaled_channel v c = Ok m /\
                         scaled_channel (v + 1) c = Ok m' /\ m <= m').
  { intros v Hv. pose proof (byte_cases _ Hall v ltac:(lia)) as H.
    cbv beta in H. destruct (Z.ltb_spec v 255); [| lia].
    destruct (scaled_channel v c) as [m |]; [| discriminate].
    destruct (scaled_channel (v + 1) c) as [m' |]; [| discriminate].
    exists m, m'. repeat split. lia. }
  assert (Hd : forall d : nat, forall v1 n1 n2,
            0 <= v1 -> v1 + Z.of_nat d <= 255 ->
            scaled_channel v1 c = Ok n1 ->
            scaled_channel (v1 + Z.of_nat d) c = Ok n2 -> n1 <= n2).
  { induction d as [| d IH]; intros v1 n1 n2 H0 H255 E1 E2.
    - rewrite Z.add_0_r in E2. rewrite E1 in E2. injection E2 as <-. lia.
    - destruct (Hstep (v1 + Z.of_nat d) ltac:(lia)) as [m [m' [Em [Em' Hle]]]].
      replace (v1 + Z.of_nat (S d)) with (v1 + Z.of_nat d + 1) in E2 by lia.
      rewrite Em' in E2. injection E2 as <-.
      pose proof (IH v1 n1 m H0 ltac:(lia) E1 Em). lia. }
  intros v1 v2 n1 n2 B1 B2 Hle E1 E2. unfold byte in B1, B2.
  apply (Hd (Z.to_nat (v2 - v1)) v1 n1 n2); try lia; try assumption.
  replace (v1 + Z.of_nat (Z.to_nat (v2 - v1))) with v2 by lia. exact E2.
Qed.

(** X5.  The luminous-intensity scaler, on every pixel whose green and
    blue are channel values: it returns, leaves red as it is, never
    raises a channel (green ends within 0..81, blue within 0..223, each at
    most what it was), and keeps the order of the values of a channel. *)
Theorem lumi_scaler_dims (r g b : Z) (Hg : byte g) (Hb : byte b) :
  exists g' b',
    SMLP34RGB_lumi_scaler (r, g, b) = Ok (r, g', b') /\
    0 <= g' <= g /\ g' <= 81 /\
    0 <= b' <= b /\ b' <= 223 /\
    (forall r2 g2 b2 r2' g2' b2',
       byte g2 -> byte b2 -> g <= g2 -> b <= b2 ->
       SMLP34RGB_lumi_scaler (r2, g2, b2) = Ok (r2', g2', b2') ->
       r2' = r2 /\ g' <= g2' /\ b' <= b2').
Proof.
  destruct (scaled_channel_bytes 0x1.45d63886594afp-2%float 81
              ltac:(vm_compute; reflexivity) g Hg) as [g' [Eg [Hg1 Hg2]]].
  destruct (scaled_channel_bytes 0x1.cp-1%float 223
              ltac:(vm_compute; reflexivity) b Hb) as [b' [Eb [Hb1 Hb2]]].
  exists g', b'.
  assert (E : SMLP34RGB_lumi_scaler (r, g, b) = Ok (r, g', b')).
  { unfold SMLP34RGB_lumi_scaler. unfold scaled_channel in Eg, Eb.
    rewrite Eg. cbn [rbind]. rewrite Eb. reflexivity. }
  split; [exact E |]. split; [lia |]. split; [lia |].
  split; [lia |]. split; [lia |].
  intros r2 g2 b2 r2' g2' b2' Bg2 Bb2 Lg Lb E2.
  unfold SMLP34RGB_lumi_scaler in E2.
  destruct (rbind (int_mul_float g2 _) round) as [x |] eqn:Xg; [| discriminate].
  cbn [rbind] in E2.
  destruct (rbind (int_mul_float b2 _) round) as [y |] eqn:Xb; [| discriminate].
  cbn [rbind] in E2. injection E2 as <- <- <-.
  split; [| split].
  - reflexivity.
  - apply (scaled_channel_mono 0x1.45d63886594afp-2%float
             ltac:(vm_compute; reflexivity) g g2 g' x Hg Bg2 Lg Eg Xg).
  - apply (scaled_channel_mono 0x1.cp-1%float
             ltac:(vm_compute; reflexivity) b b2 b' y Hb Bb2 Lb Eb Xb).
Qed.

Lemma lumi_scaler_dims_witness :
  byte 255 /\ byte 128 /\
  exists g' b',
    SMLP34RGB_lumi_scaler (7, 255, 128) = Ok (7, g', b') /\ 0 <= g' <= 255.
Proof.
  assert (B1 : byte 255) by (unfold byte; lia).
  assert (B2 : byte 128) by (unfold byte; lia).
  split; [exact B1 |]. split; [exact B2 |].
  destruct (lumi_scaler_dims 7 255 128 B1 B2) as [g' [b' [E [Hg _]]]].
  exists g', b'. split; [exact E | exact Hg].
Defined.

(** X6.  The photopic scaler, on every pixel whose red and green are
    channel values: it returns, leaves blue as it is, never raises a
    channel (red ends within 0..64, green within 0..27, each at most what
    it was), and keeps the order of the values of a channel. *)
Theorem photopic_scaler_dims (r g b : Z) (Hr : byte r) (Hg : byte g) :
  exists r' g',
    SMLP34RGB_photopic_scaler (r, g, b) = Ok (r', g', b) /\
    0 <= r' <= r /\ r' <= 64 /\
    0 <= g' <= g /\ g' <= 27 /\
    (forall r2 g2 b2 r2' g2' b2',
       byte r2 -> byte g2 -> r <= r2 -> g <= g2 ->
       SMLP34RGB_photopic_scaler (r2, g2, b2) = Ok (r2', g2', b2') ->
       b2' = b2 /\ r' <= r2' /\ g' <= g2').
Proof.
  destruct (scaled_channel_bytes 0x1.0226809d49518p-2%float 64
              ltac:(vm_compute; reflexivity) r Hr) as [r' [Er [Hr1 Hr2]]].
  destruct (scaled_channel_bytes 0x1.b089a02752546p-4%float 27
              ltac:(vm_compute; reflexivity) g Hg) as [g' [Eg [Hg1 Hg2]]].
  exists r', g'.
  assert (E : SMLP34RGB_photopic_scaler (r, g, b) = Ok (r', g', b)).
  { unfold SMLP34RGB_photopic_scaler. unfold scaled_channel in Er, Eg.
    rewrite Er. cbn [rbind]. rewrite Eg. reflexivity. }
  split; [exact E |]. split; [lia |]. split; [lia |].
  split; [lia |]. split; [lia |].
  intros r2 g2 b2 r2' g2' b2' Br2 Bg2 Lr Lg E2.
  unfold SMLP34RGB_photopic_scaler in E2.
  destruct (rbind (int_mul_float r2 _) round) as [x |] eqn:Xr; [| discriminate].
  cbn [rbind] in E2.
  destruct (rbind (int_mul_float g2 _) round) as [y |] eqn:Xg; [| discriminate].
  cbn [rbind] in E2. injection E2 as <- <- <-.
  split; [| split].
  - reflexivity.
  - apply (scaled_channel_mono 0x1.0226809d49518p-2%float
             ltac:(vm_compute; reflexivity) r r2 r' x Hr Br2 Lr Er Xr).
  - apply (scaled_channel_mono 0x1.b089a02752546p-4%float
             ltac:(vm_compute; reflexivity) g g2 g' y Hg Bg2 Lg Eg Xg).
Qed.

Lemma photopic_scaler_dims_witness :
  byte 255 /\ byte 128 /\
  exists r' g',
    SMLP34RGB_photopic_scaler (255, 128, 7) = Ok (r', g', 7) /\ 0 <= r' <= 255.
Proof.
  assert (B1 : byte 255) by (unfold byte; lia).
  assert (B2 : byte 128) by (unfold byte; lia).
  split; [exact B1 |]. split; [exact B2 |].
  destruct (photopic_scaler_dims 255 128 7 B1 B2) as [r' [g' [E [Hr _]]]].
  exists r', g'. split; [exact E | exact Hr].
Defined.

(** ** Beyond the claims: construction *)

Lemma init_run (fault : Faults) (a : Args) (tr : Trace) :
  arg_n a = 1 -> arg_bpp a = 3 ->
  __init__ fault a tr =
  match fault (PWM_new (red_pwm a) 0) tr with
  | Some e => (Raise e, tr ++ [PWM_new (red_pwm a) 0])
  | None =>
      match fault (PWM_new (green_pwm a) 0) (tr ++ [PWM_new (red_pwm a) 0]) with
      | Some e => (Raise e, tr ++ [PWM_new (red_pwm a) 0; PWM_new (green_pwm a) 0])
      | None =>
          match fault (PWM_new (blue_pwm a) 0)
                  (tr ++ [PWM_new (red_pwm a) 0; PWM_new (green_pwm a) 0]) with
          | Some e =>
              (Raise e,
               tr ++ [PWM_new (red_pwm a) 0; PWM_new (green_pwm a) 0;
                      PWM_new (blue_pwm a) 0])
          | None =>
              match write fault
                      (mkWorld (fresh a)
                         (tr ++ [PWM_new (red_pwm a) 0; PWM_new (green_pwm a) 0;
                                 PWM_new (blue_pwm a) 0])) with
              | (Ok _, w) => (Ok (self w), hw w)
              | (Raise e, w) => (Raise e, hw w)
              end
          end
      end
  end.
Proof.
  intros Hn Hb. unfold __init__. rewrite Hn, Hb. cbn [Z.eqb Pos.eqb negb].
  assert (A2 : forall x y : HwCall, (tr ++ [x]) ++ [y] = tr ++ [x; y])
    by (intros; rewrite <- app_assoc; reflexivity).
  assert (A3 : forall x y z : HwCall, (tr ++ [x; y]) ++ [z] = tr ++ [x; y; z])
    by (intros; rewrite <- app_assoc; reflexivity).
  rewrite bind_run, new_PWM_run. fold (red_pwm a).
  destruct (fault _ tr); [reflexivity |]. cbv beta iota.
  rewrite bind_run, new_PWM_run. fold (green_pwm a).
  destruct (fault _ (tr ++ _)); [rewrite A2; reflexivity |]. cbv beta iota.
  rewrite bind_run, new_PWM_run. fold (blue_pwm a). rewrite !A2.
  destruct (fault _ (tr ++ _)); [rewrite A3; reflexivity |]. cbv beta iota.
  rewrite A3. reflexivity.
Qed.

(** X7.  A PWM object that cannot be created ends the construction with
    the exception of the hardware: no instance, the channels after it are
    never created, and no duty is written.  When the three are created
    and the commit of the construction raises, the construction raises
    the same and returns no instance either. *)
Theorem construction_hardware_failure (fault : Faults) (a : Args) (tr : Trace)
  (Hn : arg_n a = 1) (Hbpp : arg_bpp a = 3) :
  let c1 := PWM_new (red_pwm a) 0 in
  let c2 := PWM_new (green_pwm a) 0 in
  let c3 := PWM_new (blue_pwm a) 0 in
  (forall e, fault c1 tr = Some e ->
     __init__ fault a tr = (Raise e, tr ++ [c1])) /\
  (forall e, fault c1 tr = None -> fault c2 (tr ++ [c1]) = Some e ->
     __init__ fault a tr = (Raise e, tr ++ [c1; c2])) /\
  (forall e, fault c1 tr = None -> fault c2 (tr ++ [c1]) = None ->
     fault c3 (tr ++ [c1; c2]) = Some e ->
     __init__ fault a tr = (Raise e, tr ++ [c1; c2; c3])) /\
  (forall e w, fault c1 tr = None -> fault c2 (tr ++ [c1]) = None ->
     fault c3 (tr ++ [c1; c2]) = None ->
     write fault (mkWorld (fresh a) (tr ++ [c1; c2; c3])) = (Raise e, w) ->
     __init__ fault a tr = (Raise e, hw w)).
Proof.
  cbv zeta. rewrite (init_run fault a tr Hn Hbpp).
  split; [| split; [| split]].
  - intros e F1. rewrite F1. reflexivity.
  - intros e F1 F2. rewrite F1, F2. reflexivity.
  - intros e F1 F2 F3. rewrite F1, F2, F3. reflexivity.
  - intros e w F1 F2 F3 W. rewrite F1, F2, F3, W. reflexivity.
Qed.

Lemma construction_hardware_failure_witness :
  arg_n (nano_args NoScaler) = 1 /\ arg_bpp (nano_args NoScaler) = 3 /\
  __init__ (no_pwm_on 0) (nano_args NoScaler) [] =
  (Raise (OSError 19), [PWM_new nano_red 0; PWM_new nano_green 0]).
Proof.
  split; [reflexivity |]. split; [reflexivity |].
  exact (proj1 (proj2
           (construction_hardware_failure (no_pwm_on 0) (nano_args NoScaler) []
              eq_refl eq_refl))
           (OSError 19) eq_refl eq_refl).
Defined.

Lemma scaled_zero_finite (m : float) :
  finite m -> scaled_channel 0 m = Ok 0.
Proof.
  unfold finite, scaled_channel, int_mul_float.
  rewrite float_of_int_zero. cbn [rbind].
  unfold round. rewrite FloatAxioms.mul_spec.
  change (Prim2SF 0%float) with (S754_zero false).
  destruct (Prim2SF m) as [s | s | | s mm e]; cbn; intros H;
    try contradiction; reflexivity.
Qed.

Lemma scaled_zero_not_finite (m : float) :
  ~ finite m ->
  scaled_channel 0 m = Raise (ValueError "cannot convert float NaN to integer").
Proof.
  unfold finite, scaled_channel, int_mul_float.
  rewrite float_of_int_zero. cbn [rbind].
  unfold round. rewrite FloatAxioms.mul_spec.
  change (Prim2SF 0%float) with (S754_zero false).
  destruct (Prim2SF m) as [s | s | | s mm e]; cbn; intros H;
    try (exfalso; apply H; exact I); reflexivity.
Qed.

Lemma finite_dec (m : float) : {finite m} + {~ finite m}.
Proof.
  unfold finite. destruct (Prim2SF m); [left | right | right | left]; auto.
Qed.

(** X8.  On a hardware that does not fail, the construction with a linear
    scaler succeeds exactly when the three multipliers are finite floats,
    and then writes duty 0 to the three channels.  With a multiplier that
    is NaN or an infinity it raises [ValueError] (the product with the
    initial value 0 is NaN), after the three PWM objects were created and
    before any duty is written. *)
Theorem linear_scaler_construction (a : Args) (m0 m1 m2 : float) (tr : Trace)
  (Hn : arg_n a = 1) (Hbpp : arg_bpp a = 3)
  (Hs : arg_scaler a = Linear m0 m1 m2) :
  (finite m0 /\ finite m1 /\ finite m2 ->
   __init__ no_fault a tr =
   (Ok (fresh a),
    tr ++ [PWM_new (red_pwm a) 0; PWM_new (green_pwm a) 0; PWM_new (blue_pwm a) 0;
           PWM_duty (red_pwm a) 0; PWM_duty (green_pwm a) 0;
           PWM_duty (blue_pwm a) 0])) /\
  (~ (finite m0 /\ finite m1 /\ finite m2) ->
   __init__ no_fault a tr =
   (Raise (ValueError "cannot convert float NaN to integer"),
    tr ++ [PWM_new (red_pwm a) 0; PWM_new (green_pwm a) 0; PWM_new (blue_pwm a) 0])).
Proof.
  rewrite (init_run no_fault a tr Hn Hbpp). unfold no_fault at 1 2 3.
  assert (Hsc : scaler (fresh a) = Linear m0 m1 m2)
    by (unfold fresh; rewrite Hs; reflexivity).
  assert (Hc : color (fresh a) = (0, 0, 0)) by reflexivity.
  split.
  - intros [F0 [F1 F2]].
    assert (Ha : apply_scaler (scaler (fresh a)) (color (fresh a)) = Ok (0, 0, 0)).
    { rewrite Hsc, Hc. cbn [apply_scaler].
      pose proof (scaled_zero_finite m0 F0) as E0.
      pose proof (scaled_zero_finite m1 F1) as E1.
      pose proof (scaled_zero_finite m2 F2) as E2.
      unfold scaled_channel in E0, E1, E2.
      rewrite E0. cbn [rbind]. rewrite E1. cbn [rbind]. rewrite E2. reflexivity. }
    rewrite (write_push no_fault _ _ _ Ha), push_no_fault.
    cbn [fst snd self hw]. rewrite <- app_assoc. reflexivity.
  - intros Hnf.
    assert (Ha : apply_scaler (scaler (fresh a)) (color (fresh a)) =
                 Raise (ValueError "cannot convert float NaN to integer")).
    { rewrite Hsc, Hc. cbn [apply_scaler].
      destruct (finite_dec m0) as [F0 | N0].
      - pose proof (scaled_zero_finite m0 F0) as E0. unfold scaled_channel in E0.
        rewrite E0. cbn [rbind].
        destruct (finite_dec m1) as [F1 | N1].
        + pose proof (scaled_zero_finite m1 F1) as E1. unfold scaled_channel in E1.
          rewrite E1. cbn [rbind].
          destruct (finite_dec m2) as [F2 | N2]; [exfalso; apply Hnf; auto |].
          pose proof (scaled_zero_not_finite m2 N2) as E2.
          unfold scaled_channel in E2. rewrite E2. reflexivity.
        + pose proof (scaled_zero_not_finite m1 N1) as E1.
          unfold scaled_channel in E1. rewrite E1. reflexivity.
      - pose proof (scaled_zero_not_finite m0 N0) as E0.
        unfold scaled_channel in E0. rewrite E0. reflexivity. }
    rewrite (write_scaler_raises no_fault _ _ _ Ha). reflexivity.
Qed.

Lemma linear_scaler_construction_witness :
  arg_n (nano_args (Linear infinity 1 1)) = 1 /\
  arg_bpp (nano_args (Linear infinity 1 1)) = 3 /\
  __init__ no_fault (nano_args (Linear infinity 1 1)) [] =
  (Raise (ValueError "cannot convert float NaN to integer"),
   [PWM_new nano_red 0; PWM_new nano_green 0; PWM_new nano_blue 0]).
Proof.
  split; [reflexivity |]. split; [reflexivity |].
  apply (proj2 (linear_scaler_construction (nano_args (Linear infinity 1 1))
                  infinity 1 1 [] eq_refl eq_refl eq_refl)).
  intros [H _]. exact H.
Defined.

(** ** Beyond the claims: setting and filling *)

Lemma setitem_triple (a b c : Z) (rest : list Z) (w : World) :
  __setitem__ 0 (a :: b :: c :: rest) w =
  (Ok tt,
   mkWorld (instance (scaler (self w)) (a mod 256, b mod 256, c mod 256)
              (px (red (self w))) (px (green (self w))) (px (blue (self w))))
           (hw w)).
Proof. reflexivity. Qed.

(** X9.  A set at index 0 with three components or more succeeds, uses
    the first three and ignores the rest, and leaves nothing of an earlier
    set behind, be that one complete, cut short by a short value, or
    refused for its index. *)
Theorem setitem_last_wins (index : Z) (earlier : list Z) (a b c : Z)
  (rest : list Z) (w : World) :
  __setitem__ 0 (a :: b :: c :: rest) (snd (__setitem__ index earlier w)) =
  __setitem__ 0 [a; b; c] w /\
  fst (__setitem__ 0 (a :: b :: c :: rest) w) = Ok tt.
Proof.
  split; [| reflexivity].
  rewrite !setitem_triple.
  destruct (setitem_frame index earlier w) as [Eh [Es [Er [Eg Eb]]]].
  rewrite Eh, Es, Er, Eg, Eb. reflexivity.
Qed.

(** X10.  Writing back what was read changes nothing: on an instance whose
    stored values are channel values (every instance a program can reach),
    [px[0] = px[0]] succeeds and leaves the instance and the hardware as
    they were. *)
Theorem setitem_of_getitem (w : World) (Hb : byte_store (self w)) :
  exists p,
    __getitem__ 0 w = (Ok p, w) /\
    __setitem__ 0 (tuple_of p) w = (Ok tt, w).
Proof.
  exists (color (self w)). split; [reflexivity |].
  destruct w as [[s [r pr] [g pg] [b pb]] h].
  unfold byte_store, byte_pixel, color, byte in Hb. cbn in Hb.
  destruct Hb as [Hr [Hg Hbl]].
  unfold color, tuple_of. cbn [self red green blue value].
  rewrite setitem_triple. cbn [self hw scaler red green blue px instance].
  rewrite !Z.mod_small by lia. reflexivity.
Qed.

Lemma setitem_of_getitem_witness :
  byte_store (self (mkWorld (nano NoScaler (44, 251, 3)) [])) /\
  exists p,
    __getitem__ 0 (mkWorld (nano NoScaler (44, 251, 3)) []) =
    (Ok p, mkWorld (nano NoScaler (44, 251, 3)) []) /\
    __setitem__ 0 (tuple_of p) (mkWorld (nano NoScaler (44, 251, 3)) []) =
    (Ok tt, mkWorld (nano NoScaler (44, 251, 3)) []).
Proof.
  assert (Hb : byte_store (self (mkWorld (nano NoScaler (44, 251, 3)) [])))
    by (unfold byte_store, byte_pixel, byte; cbn; lia).
  split; [exact Hb |].
  apply (setitem_of_getitem (mkWorld (nano NoScaler (44, 251, 3)) []) Hb).
Defined.

(** X11.  [fill] then [write], without a scaler and on a hardware that
    does not fail: whatever three integers are filled in, both calls
    succeed, the three channels receive the expansions of the integers
    reduced modulo 256, each within 0..1023, and [px[0]] then returns the
    reduced integers. *)
Theorem fill_then_write (w : World) (a b c : Z)
  (Hs : scaler (self w) = NoScaler) :
  exists w1 w2,
    fill [a; b; c] w = (Ok tt, w1) /\
    write no_fault w1 = (Ok tt, w2) /\
    hw w2 = hw w ++ [PWM_duty (px (red (self w))) (expand10 (a mod 256));
                     PWM_duty (px (green (self w))) (expand10 (b mod 256));
                     PWM_duty (px (blue (self w))) (expand10 (c mod 256))] /\
    (0 <= expand10 (a mod 256) <= 1023 /\
     0 <= expand10 (b mod 256) <= 1023 /\
     0 <= expand10 (c mod 256) <= 1023) /\
    __getitem__ 0 w2 = (Ok (a mod 256, b mod 256, c mod 256), w2).
Proof.
  unfold fill. rewrite setitem_triple. rewrite Hs.
  eexists. eexists. split; [reflexivity |].
  split.
  - rewrite (write_push no_fault _ _ (a mod 256, b mod 256, c mod 256));
      [| reflexivity].
    rewrite push_no_fault. reflexivity.
  - cbn [hw]. split; [reflexivity |]. split; [| reflexivity].
    pose proof (mod_256_byte a) as Ba. pose proof (mod_256_byte b) as Bb.
    pose proof (mod_256_byte c) as Bc. unfold byte in *.
    repeat split; apply expand10_range; lia.
Qed.

Lemma fill_then_write_witness :
  scaler (self (mkWorld (nano NoScaler (1, 2, 3)) [])) = NoScaler /\
  exists w1 w2,
    fill [300; -5; 128] (mkWorld (nano NoScaler (1, 2, 3)) []) = (Ok tt, w1) /\
    write no_fault w1 = (Ok tt, w2) /\
    hw w2 = [PWM_duty nano_red 176; PWM_duty nano_green 1007; PWM_duty nano_blue 514].
Proof.
  split; [reflexivity |].
  destruct (fill_then_write (mkWorld (nano NoScaler (1, 2, 3)) []) 300 (-5) 128
              eq_refl) as [w1 [w2 [F [W [H _]]]]].
  exists w1, w2. split; [exact F |]. split; [exact W | exact H].
Defined.

(** ** Beyond the claims: scalers that change nothing *)

Lemma scaled_by_one (v : Z) : byte v -> scaled_channel v 1 = Ok v.
Proof.
  intros Hv.
  pose (P := fun v => match scaled_channel v 1 with
                      | Ok n => n =? v
                      | Raise _ => false
                      end).
  assert (HP : P v = true)
    by (apply byte_cases; [vm_compute; reflexivity | unfold byte in Hv; lia]).
  unfold P in HP. destruct (scaled_channel v 1) as [n |]; [| discriminate].
  apply Z.eqb_eq in HP. subst n. reflexivity.
Qed.

(** X12.  The linear scaler (1.0, 1.0, 1.0) and the [unity_scaler]
    function of the test script scale nothing: on every pixel value they
    return it unchanged, so a commit makes the calls, and ends the way, it
    does without a scaler. *)
Theorem unity_scalers (p : Pixel) (Hp : byte_pixel p) :
  apply_scaler (Linear 1 1 1) p = Ok p /\
  apply_scaler (Functional unity_scaler) p = Ok p /\
  forall fault pr pg pb tr,
    let run s := write fault (mkWorld (instance s p pr pg pb) tr) in
    fst (run (Linear 1 1 1)) = fst (run NoScaler) /\
    hw (snd (run (Linear 1 1 1))) = hw (snd (run NoScaler)) /\
    fst (run (Functional unity_scaler)) = fst (run NoScaler) /\
    hw (snd (run (Functional unity_scaler))) = hw (snd (run NoScaler)).
Proof.
  destruct p as [[r g] b]. destruct Hp as [Hr [Hg Hb]].
  assert (E1 : apply_scaler (Linear 1 1 1) (r, g, b) = Ok (r, g, b)).
  { cbn [apply_scaler].
    pose proof (scaled_by_one r Hr) as Er. pose proof (scaled_by_one g Hg) as Eg.
    pose proof (scaled_by_one b Hb) as Eb. unfold scaled_channel in Er, Eg, Eb.
    rewrite Er. cbn [rbind]. rewrite Eg. cbn [rbind]. rewrite Eb. reflexivity. }
  assert (E2 : apply_scaler (Functional unity_scaler) (r, g, b) = Ok (r, g, b))
    by reflexivity.
  split; [exact E1 |]. split; [exact E2 |].
  intros fault pr pg pb tr. cbv beta zeta.
  rewrite (write_push fault (instance (Linear 1 1 1) (r, g, b) pr pg pb) tr
             (r, g, b) E1).
  rewrite (write_push fault (instance (Functional unity_scaler) (r, g, b) pr pg pb)
             tr (r, g, b) E2).
  rewrite (write_push fault (instance NoScaler (r, g, b) pr pg pb) tr
             (r, g, b) eq_refl).
  repeat split.
Qed.

Lemma unity_scalers_witness :
  byte_pixel (255, 0, 128) /\
  apply_scaler (Linear 1 1 1) (255, 0, 128) = Ok (255, 0, 128).
Proof.
  assert (Hp : byte_pixel (255, 0, 128)) by (unfold byte_pixel, byte; lia).
  split; [exact Hp | apply (unity_scalers (255, 0, 128) Hp)].
Defined.

(** ** Beyond the claims: the test script *)

(** A loop whose body keeps an invariant that counts the rounds. *)
Lemma for_each_invariant {S A : Type} (xs : list A) (body : A -> M S unit) :
  forall (I : nat -> S -> Prop),
    (forall i x s, nth_error xs i = Some x -> I i s ->
       exists s', body x s = (Ok tt, s') /\ I (Datatypes.S i) s') ->
    forall s, I 0%nat s ->
      exists s', for_each xs body s = (Ok tt, s') /\ I (List.length xs) s'.
Proof.
  induction xs as [| x xs IH]; intros I Hstep s H0; cbn [for_each List.length].
  - exists s. split; [reflexivity | exact H0].
  - destruct (Hstep 0%nat x s eq_refl H0) as [s1 [E1 I1]].
    destruct (IH (fun i => I (Datatypes.S i))
                (fun i y t Hn Hi => Hstep (Datatypes.S i) y t Hn Hi) s1 I1)
      as [s' [E' I']].
    exists s'. split; [| exact I'].
    rewrite bind_run, E1. exact E'.
Qed.

Lemma range_nth (lo hi : Z) (i : nat) (x : Z) :
  nth_error (range lo hi) i = Some x ->
  x = lo + Z.of_nat i /\ lo <= x < hi.
Proof.
  unfold range. intros H.
  rewrite nth_error_map in H.
  destruct (nth_error (seq 0 (Z.to_nat (hi - lo))) i) as [j |] eqn:Hj;
    [| discriminate].
  cbn in H. injection H as <-.
  assert (Hlen : (i < List.length (seq 0 (Z.to_nat (hi - lo))))%nat)
    by (apply nth_error_Some; rewrite Hj; discriminate).
  rewrite length_seq in Hlen.
  pose proof (nth_error_nth _ _ 0%nat Hj) as Hn.
  rewrite seq_nth in Hn by exact Hlen. cbn in Hn. subst j. lia.
Qed.

Lemma range_length (lo hi : Z) :
  lo <= hi -> List.length (range lo hi) = Z.to_nat (hi - lo).
Proof.
  intros _. unfold range. rewrite length_map, length_seq. reflexivity.
Qed.

Lemma test_colour_byte (x y : Z) : 0 <= y <= 255 -> byte_pixel (test_colour x y).
Proof.
  intros Hy. unfold test_colour, byte_pixel, byte.
  destruct (x =? 0); [lia |]. destruct (x =? 1); lia.
Qed.

Lemma duty_calls_on (o : t) (p : Pixel) :
  byte_pixel p ->
  Forall (duty_on (px (red o)) (px (green o)) (px (blue o))) (duty_calls o p) /\
  List.length (duty_calls o p) = 3%nat.
Proof.
  destruct p as [[r g] b]. intros [Hr [Hg Hb]]. unfold byte in *.
  split; [| reflexivity].
  unfold duty_calls.
  repeat constructor.
  - exists (expand10 r). split; [apply expand10_range; lia | auto].
  - exists (expand10 g). split; [apply expand10_range; lia | auto].
  - exists (expand10 b). split; [apply expand10_range; lia | auto].
Qed.

Section TestPixel.

Variable fault : Faults.
Hypothesis never_faults : forall c t, fault c t = None.
Variable s : Scaler.
Hypothesis scaler_ok : byte_scaler s.
Variables pr pg pb : PWM.

(** One step of the inner loop. *)
Lemma test_step (x y : Z) (col : Pixel) (h : Trace) (ms : Z) :
  0 <= y <= 255 ->
  exists new,
    (on_pixel (if x =? 0 then __setitem__ 0 [255 - y; 0; y]
               else if x =? 1 then __setitem__ 0 [0; y; 255 - y]
               else __setitem__ 0 [y; 255 - y; 0]) ;;
     on_pixel (write fault) ;;
     sleep_ms 10)
      (mkWorld (instance s col pr pg pb) h, ms) =
    (Ok tt, (mkWorld (instance s (test_colour x y) pr pg pb) (h ++ new), ms + 10)) /\
    Forall (duty_on pr pg pb) new /\ List.length new = 3%nat.
Proof.
  intros Hy.
  destruct (scaler_ok (test_colour x y) (test_colour_byte x y Hy)) as [p' [Ep Bp]].
  destruct (duty_calls_on (instance s (test_colour x y) pr pg pb) p' Bp) as [Fd Ld].
  exists (duty_calls (instance s (test_colour x y) pr pg pb) p').
  split; [| split; [| exact Ld]].
  - assert (Eset : (if x =? 0 then __setitem__ 0 [255 - y; 0; y]
                    else if x =? 1 then __setitem__ 0 [0; y; 255 - y]
                    else __setitem__ 0 [y; 255 - y; 0])
                     (mkWorld (instance s col pr pg pb) h) =
                   (Ok tt, mkWorld (instance s (test_colour x y) pr pg pb) h)).
    { destruct col as [[r0 g0] b0]. unfold test_colour.
      destruct (x =? 0); [| destruct (x =? 1)];
        rewrite setitem_triple; cbn [self hw scaler red green blue px instance];
        rewrite (Z.mod_small y 256), (Z.mod_small (255 - y) 256) by lia;
        reflexivity. }
    assert (Ew : write fault (mkWorld (instance s (test_colour x y) pr pg pb) h) =
                 (Ok tt,
                  mkWorld (instance s (test_colour x y) pr pg pb)
                    (h ++ duty_calls (instance s (test_colour x y) pr pg pb) p'))).
    { rewrite (write_push fault _ h p').
      - rewrite (push_never_faults fault _ never_faults). reflexivity.
      - destruct (test_colour x y) as [[r1 g1] b1]. exact Ep. }
    rewrite bind_run. unfold on_pixel at 1. rewrite Eset.
    rewrite bind_run. unfold on_pixel at 1. rewrite Ew.
    reflexivity.
  - destruct (test_colour x y) as [[r1 g1] b1]. exact Fd.
Qed.

(** One round: the inner loop. *)
Lemma test_round (x : Z) (col : Pixel) (h : Trace) (ms : Z) :
  exists new,
    for_each (range 0 256) (fun y =>
      on_pixel (if x =? 0 then __setitem__ 0 [255 - y; 0; y]
                else if x =? 1 then __setitem__ 0 [0; y; 255 - y]
                else __setitem__ 0 [y; 255 - y; 0]) ;;
      on_pixel (write fault) ;;
      sleep_ms 10)
      (mkWorld (instance s col pr pg pb) h, ms) =
    (Ok tt,
     (mkWorld (instance s (test_colour x 255) pr pg pb) (h ++ new), ms + 2560)) /\
    Forall (duty_on pr pg pb) new /\ List.length new = 768%nat.
Proof.
  pose (I := fun (i : nat) (st : Bench) =>
    exists c new,
      st = (mkWorld (instance s c pr pg pb) (h ++ new), ms + 10 * Z.of_nat i) /\
      (i <> 0%nat -> c = test_colour x (Z.of_nat i - 1)) /\
      Forall (duty_on pr pg pb) new /\ List.length new = (3 * i)%nat).
  destruct (for_each_invariant (range 0 256)
              (fun y =>
                 on_pixel (if x =? 0 then __setitem__ 0 [255 - y; 0; y]
                           else if x =? 1 then __setitem__ 0 [0; y; 255 - y]
                           else __setitem__ 0 [y; 255 - y; 0]) ;;
                 on_pixel (write fault) ;;
                 sleep_ms 10) I) with (s := (mkWorld (instance s col pr pg pb) h, ms))
    as [st [E Ist]].
  - intros i y st Hn [c [new [-> [_ [Fn Ln]]]]].
    destruct (range_nth 0 256 i y Hn) as [Ey Hy].
    destruct (test_step x y c (h ++ new) (ms + 10 * Z.of_nat i) ltac:(lia))
      as [n1 [E1 [F1 L1]]].
    eexists. split; [exact E1 |].
    exists (test_colour x y), (new ++ n1). split; [| split; [| split]].
    + replace (ms + 10 * Z.of_nat (Datatypes.S i))
        with (ms + 10 * Z.of_nat i + 10) by lia.
      rewrite app_assoc. reflexivity.
    + intros _. f_equal. lia.
    + apply Forall_app. split; assumption.
    + rewrite length_app, Ln, L1. lia.
  - exists col, []. rewrite app_nil_r. split; [| split; [| split]].
    + replace (ms + 10 * Z.of_nat 0) with ms by lia. reflexivity.
    + intros H. contradiction.
    + constructor.
    + reflexivity.
  - destruct Ist as [c [new [-> [Hc [Fn Ln]]]]].
    rewrite range_length in Hc, Ln, E by lia.
    change (Z.to_nat (256 - 0)) with 256%nat in *.
    exists new. split; [| split; [exact Fn | exact Ln]].
    rewrite E, (Hc ltac:(discriminate)).
    replace (ms + 10 * Z.of_nat 256) with (ms + 2560) by lia. reflexivity.
Qed.

Lemma test_pixel_run (col : Pixel) (h : Trace) (ms : Z) :
  exists new,
    test_pixel fault (mkWorld (instance s col pr pg pb) h, ms) =
    (Ok tt, (mkWorld (instance s (255, 0, 0) pr pg pb) (h ++ new), ms + 7680)) /\
    Forall (duty_on pr pg pb) new /\ List.length new = 2304%nat.
Proof.
  unfold test_pixel. change (range 0 3) with [0; 1; 2]. cbn [for_each].
  destruct (test_round 0 col h ms) as [n0 [E0 [F0 L0]]].
  destruct (test_round 1 (test_colour 0 255) (h ++ n0) (ms + 2560))
    as [n1 [E1 [F1 L1]]].
  destruct (test_round 2 (test_colour 1 255) ((h ++ n0) ++ n1) (ms + 2560 + 2560))
    as [n2 [E2 [F2 L2]]].
  exists (n0 ++ n1 ++ n2).
  split; [| split].
  - rewrite bind_run, E0. rewrite bind_run, E1. rewrite bind_run, E2.
    unfold ret. rewrite !app_assoc.
    change (test_colour 2 255) with ((255, 0, 0) : Pixel).
    replace (ms + 2560 + 2560 + 2560) with (ms + 7680) by lia. reflexivity.
  - repeat (apply Forall_app; split); assumption.
  - rewrite !length_app, L0, L1, L2. reflexivity.
Qed.

End TestPixel.

(** X13.  [test_pixel] on a hardware that does not fail, with a scaler
    that returns a pixel value for every pixel value: it runs to its end
    without an exception, makes 2304 calls to the hardware (three for each
    of its 768 steps), every one a duty within 0..1023 on one of the three
    PWM objects of the pixel, leaves the stored colour at (255, 0, 0) with
    the scaler and the PWM objects untouched, and sleeps 7680 ms in all. *)
Theorem test_pixel_completes (fault : Faults) (w : World) (ms : Z)
  (Hnf : forall c t, fault c t = None)
  (Hs : byte_scaler (scaler (self w))) :
  exists new,
    test_pixel fault (w, ms) =
    (Ok tt,
     (mkWorld (instance (scaler (self w)) (255, 0, 0)
                 (px (red (self w))) (px (green (self w))) (px (blue (self w))))
              (hw w ++ new),
      ms + 7680)) /\
    Forall (duty_on (px (red (self w))) (px (green (self w))) (px (blue (self w))))
      new /\
    List.length new = 2304%nat.
Proof.
  destruct w as [[s [r pr] [g pg] [b pb]] h].
  cbn [self hw scaler red green blue px] in *.
  exact (test_pixel_run fault Hnf s Hs pr pg pb (r, g, b) h ms).
Qed.

Lemma byte_scaler_NoScaler : byte_scaler NoScaler.
Proof.
  intros [[r g] b] Hp. exists (r, g, b). split; [reflexivity | exact Hp].
Qed.

Lemma test_pixel_completes_witness :
  (forall c t, no_fault c t = None) /\
  byte_scaler (scaler (self (mkWorld (nano NoScaler (0, 0, 0)) []))) /\
  exists new,
    test_pixel no_fault (mkWorld (nano NoScaler (0, 0, 0)) [], 0) =
    (Ok tt, (mkWorld (nano NoScaler (255, 0, 0)) ([] ++ new), 0 + 7680)) /\
    Forall (duty_on nano_red nano_green nano_blue) new /\
    List.length new = 2304%nat.
Proof.
  split; [reflexivity |]. split; [exact byte_scaler_NoScaler |].
  apply (test_pixel_completes no_fault (mkWorld (nano NoScaler (0, 0, 0)) []) 0).
  - reflexivity.
  - exact byte_scaler_NoScaler.
Defined.

Lemma byte_scaler_unity : byte_scaler (Functional unity_scaler).
Proof.
  intros [[r g] b] Hp. exists (r, g, b). split; [reflexivity | exact Hp].
Qed.

Lemma byte_scaler_lumi : byte_scaler (Functional SMLP34RGB_lumi_scaler).
Proof.
  intros [[r g] b] [Hr [Hg Hb]].
  destruct (scaled_channel_bytes 0x1.45d63886594afp-2%float 81
              ltac:(vm_compute; reflexivity) g Hg) as [g' [Eg [Hg1 Hg2]]].
  destruct (scaled_channel_bytes 0x1.cp-1%float 223
              ltac:(vm_compute; reflexivity) b Hb) as [b' [Eb [Hb1 Hb2]]].
  exists (r, g', b'). split.
  - cbn [apply_scaler]. unfold SMLP34RGB_lumi_scaler.
    unfold scaled_channel in Eg, Eb. rewrite Eg. cbn [rbind]. rewrite Eb.
    reflexivity.
  - unfold byte_pixel, byte in *. lia.
Qed.

Lemma byte_scaler_test_linear : byte_scaler test_linear.
Proof.
  intros [[r g] b] [Hr [Hg Hb]].
  destruct (scaled_channel_bytes 0x1.999999999999ap-4%float 255
              ltac:(vm_compute; reflexivity) r Hr) as [r' [Er [Hr1 Hr2]]].
  destruct (scaled_channel_bytes 0x1.999999999999ap-2%float 255
              ltac:(vm_compute; reflexivity) g Hg) as [g' [Eg [Hg1 Hg2]]].
  destruct (scaled_channel_bytes 0x1.ccccccccccccdp-1%float 255
              ltac:(vm_compute; reflexivity) b Hb) as [b' [Eb [Hb1 Hb2]]].
  exists (r', g', b'). split.
  - unfold test_linear. cbn [apply_scaler].
    unfold scaled_channel in Er, Eg, Eb.
    rewrite Er. cbn [rbind]. rewrite Eg. cbn [rbind]. rewrite Eb. reflexivity.
  - unfold byte_pixel, byte in *. lia.
Qed.

Lemma construct_and_test_run (fault : Faults) (s : Scaler) (tr : Trace) (ms : Z) :
  (forall c t, fault c t = None) -> byte_scaler s ->
  exists new,
    construct_and_test fault s (tr, ms) = (Ok tt, (tr ++ new, ms + 7680)) /\
    Forall duty_in_range new /\ List.length new = 2310%nat.
Proof.
  intros Hnf Hs.
  set (a := mkArgs 46 0 45 1 3 None true 5000 s).
  destruct (Hs (0, 0, 0)) as [p0 [E0 B0]];
    [unfold byte_pixel, byte; lia |].
  assert (Hinit : __init__ fault a tr =
            (Ok (fresh a),
             tr ++ [PWM_new (red_pwm a) 0; PWM_new (green_pwm a) 0;
                    PWM_new (blue_pwm a) 0] ++ duty_calls (fresh a) p0)).
  { rewrite (init_run fault a tr eq_refl eq_refl). rewrite !Hnf.
    rewrite (write_push fault (fresh a) _ p0 E0).
    rewrite (push_never_faults fault _ Hnf). cbn [fst snd self hw].
    rewrite <- app_assoc. reflexivity. }
  destruct (test_pixel_run fault Hnf s Hs (red_pwm a) (green_pwm a) (blue_pwm a)
              (0, 0, 0)
              (tr ++ [PWM_new (red_pwm a) 0; PWM_new (green_pwm a) 0;
                      PWM_new (blue_pwm a) 0] ++ duty_calls (fresh a) p0) ms)
    as [new [Et [Ft Lt]]].
  destruct (duty_calls_on (fresh a) p0 B0) as [Fd Ld].
  exists (([PWM_new (red_pwm a) 0; PWM_new (green_pwm a) 0; PWM_new (blue_pwm a) 0]
             ++ duty_calls (fresh a) p0) ++ new).
  split; [| split].
  - unfold construct_and_test. fold a. rewrite Hinit.
    change (instance s (0, 0, 0) (red_pwm a) (green_pwm a) (blue_pwm a))
      with (fresh a) in Et.
    rewrite Et. cbn [hw]. rewrite <- !app_assoc. reflexivity.
  - assert (Hon : forall pr pg pb l, Forall (duty_on pr pg pb) l ->
                                     Forall duty_in_range l).
    { intros pr pg pb l Hl. eapply Forall_impl; [| exact Hl].
      intros c [v [Hv [-> | [-> | ->]]]]; exact Hv. }
    apply Forall_app. split; [apply Forall_app; split |].
    + repeat constructor.
    + eapply Hon. exact Fd.
    + eapply Hon. exact Ft.
  - rewrite !length_app, Ld, Lt. reflexivity.
Qed.

(** X14.  The test script [run] on a hardware that does not fail: its four
    pixels (no scaler, the linear scaler (0.1, 0.4, 0.9), the luminous
    intensity scaler, the unity scaler) are constructed and tested without
    an exception; the hardware receives 9240 calls, each one a PWM created
    with duty 0 or a duty within 0..1023; the script sleeps 30720 ms. *)
Theorem run_completes (fault : Faults) (tr : Trace) (ms : Z)
  (Hnf : forall c t, fault c t = None) :
  exists new,
    run fault (tr, ms) = (Ok tt, (tr ++ new, ms + 30720)) /\
    Forall duty_in_range new /\
    Z.of_nat (List.length new) = 9240.
Proof.
  destruct (construct_and_test_run fault NoScaler tr ms Hnf byte_scaler_NoScaler)
    as [n1 [E1 [F1 L1]]].
  destruct (construct_and_test_run fault test_linear (tr ++ n1) (ms + 7680) Hnf
              byte_scaler_test_linear) as [n2 [E2 [F2 L2]]].
  destruct (construct_and_test_run fault (Functional SMLP34RGB_lumi_scaler)
              ((tr ++ n1) ++ n2) (ms + 7680 + 7680) Hnf byte_scaler_lumi)
    as [n3 [E3 [F3 L3]]].
  destruct (construct_and_test_run fault (Functional unity_scaler)
              (((tr ++ n1) ++ n2) ++ n3) (ms + 7680 + 7680 + 7680) Hnf
              byte_scaler_unity) as [n4 [E4 [F4 L4]]].
  exists (n1 ++ n2 ++ n3 ++ n4). split; [| split].
  - unfold run. unfold Trace in *.
    rewrite bind_run, E1. cbv beta iota.
    rewrite bind_run, E2. cbv beta iota.
    rewrite bind_run, E3. cbv beta iota.
    rewrite E4. rewrite !app_assoc.
    replace (ms + 7680 + 7680 + 7680 + 7680) with (ms + 30720) by lia.
    reflexivity.
  - repeat (apply Forall_app; split); assumption.
  - rewrite !length_app, L1, L2, L3, L4. reflexivity.
Qed.

Lemma run_completes_witness :
  (forall c t, no_fault c t = None) /\
  exists new,
    run no_fault ([], 0) = (Ok tt, ([] ++ new, 0 + 30720)) /\
    Forall duty_in_range new /\
    Z.of_nat (List.length new) = 9240.
Proof.
  split; [reflexivity |].
  apply (run_completes no_fault [] 0). reflexivity.
Defined.

Lemma test_step_fault (fault : Faults) (s : Scaler) (pr pg pb : PWM)
  (x y : Z) (col : Pixel) (h : Trace) (ms : Z) (e : exn) (r g b : Z) :
  0 <= y <= 255 ->
  apply_scaler s (test_colour x y) = Ok (r, g, b) ->
  fault (PWM_duty pr (expand10 r)) h = Some e ->
  (on_pixel (if x =? 0 then __setitem__ 0 [255 - y; 0; y]
             else if x =? 1 then __setitem__ 0 [0; y; 255 - y]
             else __setitem__ 0 [y; 255 - y; 0]) ;;
   on_pixel (write fault) ;;
   sleep_ms 10)
    (mkWorld (instance s col pr pg pb) h, ms) =
  (Raise e,
   (mkWorld (instance s (test_colour x y) pr pg pb)
      (h ++ [PWM_duty pr (expand10 r)]), ms)).
Proof.
  intros Hy Hsc Hf.
  assert (Eset : (if x =? 0 then __setitem__ 0 [255 - y; 0; y]
                  else if x =? 1 then __setitem__ 0 [0; y; 255 - y]
                  else __setitem__ 0 [y; 255 - y; 0])
                   (mkWorld (instance s col pr pg pb) h) =
                 (Ok tt, mkWorld (instance s (test_colour x y) pr pg pb) h)).
  { destruct col as [[r0 g0] b0]. unfold test_colour.
    destruct (x =? 0); [| destruct (x =? 1)];
      rewrite setitem_triple; cbn [self hw scaler red green blue px instance];
      rewrite (Z.mod_small y 256), (Z.mod_small (255 - y) 256) by lia;
      reflexivity. }
  assert (Ew : write fault (mkWorld (instance s (test_colour x y) pr pg pb) h) =
               (Raise e,
                mkWorld (instance s (test_colour x y) pr pg pb)
                  (h ++ [PWM_duty pr (expand10 r)]))).
  { rewrite (write_push fault _ h (r, g, b)).
    - destruct (test_colour x y) as [[r1 g1] b1].
      cbn [duty_calls push instance red green blue px]. rewrite Hf. reflexivity.
    - destruct (test_colour x y) as [[r1 g1] b1]. exact Hsc. }
  rewrite bind_run. unfold on_pixel at 1. rewrite Eset.
  rewrite bind_run. unfold on_pixel at 1. rewrite Ew.
  reflexivity.
Qed.

(** X15.  [test_pixel] does not catch what the hardware raises: when the
    first duty call of its first commit fails, the test ends there with
    that exception, after the colour (255, 0, 0) was set and that one call
    was made, without sleeping and without another step. *)
Theorem test_pixel_stops_at_fault (fault : Faults) (w : World) (ms : Z)
  (e : exn) (r g b : Z)
  (Hscaled : apply_scaler (scaler (self w)) (255, 0, 0) = Ok (r, g, b))
  (Hfault : fault (PWM_duty (px (red (self w))) (expand10 r)) (hw w) = Some e) :
  test_pixel fault (w, ms) =
  (Raise e,
   (mkWorld (instance (scaler (self w)) (255, 0, 0)
               (px (red (self w))) (px (green (self w))) (px (blue (self w))))
            (hw w ++ [PWM_duty (px (red (self w))) (expand10 r)]),
    ms)).
Proof.
  destruct w as [[s [r0 pr] [g0 pg] [b0 pb]] h].
  cbn [self hw scaler red green blue px] in *.
  change (mkRGBPixel s (mkChannel r0 pr) (mkChannel g0 pg) (mkChannel b0 pb))
    with (instance s (r0, g0, b0) pr pg pb).
  unfold test_pixel.
  change (range 0 3) with [0; 1; 2].
  change (range 0 256) with (0 :: range 1 256).
  cbn [for_each]. rewrite bind_run. rewrite bind_run.
  rewrite (test_step_fault fault s pr pg pb 0 0 (r0, g0, b0) h ms e r g b
             ltac:(lia) Hscaled Hfault).
  reflexivity.
Qed.

Lemma test_pixel_stops_at_fault_witness :
  apply_scaler (scaler (self (mkWorld (nano NoScaler (0, 0, 0)) []))) (255, 0, 0) =
  Ok (255, 0, 0) /\
  faulty_pin 46 (PWM_duty nano_red (expand10 255)) [] = Some (OSError 5) /\
  test_pixel (faulty_pin 46) (mkWorld (nano NoScaler (0, 0, 0)) [], 0) =
  (Raise (OSError 5),
   (mkWorld (nano NoScaler (255, 0, 0)) [PWM_duty nano_red 1023], 0)).
Proof.
  split; [reflexivity |]. split; [reflexivity |].
  exact (test_pixel_stops_at_fault (faulty_pin 46)
           (mkWorld (nano NoScaler (0, 0, 0)) []) 0 (OSError 5) 255 0 0
           eq_refl eq_refl).
Defined.
